(** * CourseBot chat widget and the retrieval contract it calls

    A shallow embedding of the chat widget of the Physical AI course site
    ([website/src/components/ChatbotWidget/ChatbotWidget.jsx] and the original
    [RAGChatbot] component) together with the retrieval service its
    [/chat] endpoint is specified to be.

    JavaScript strings are sequences of UTF-16 code units, React state is an
    explicit record, and the body of the asynchronous [sendMessage] is split
    at its [await]: each half returns, in program order, the effects it
    performs (state updates, the [fetch], the console log). *)

From Stdlib Require Import List Bool Arith ZArith NArith QArith Lia.
From Stdlib Require Import String Ascii Sorted.
Import ListNotations.

Local Open Scope list_scope.

(** ** JavaScript strings *)

Module JS.

(** A string value: its UTF-16 code units. *)
Definition jsstring := list N.

(** An ASCII literal of the source as a string value. *)
Definition js (s : string) : jsstring :=
  map N_of_ascii (list_ascii_of_string s).

(** [a === b] on strings. *)
Fixpoint str_eqb (a b : jsstring) : bool :=
  match a, b with
  | [], [] => true
  | x :: a', y :: b' => N.eqb x y && str_eqb a' b'
  | _, _ => false
  end.

(** Truthiness of a string: only the empty string is falsy. *)
Definition truthy (s : jsstring) : bool :=
  match s with [] => false | _ :: _ => true end.

(** [s || undefined] for a string [s]; [None] stands for [undefined]. *)
Definition or_undefined (s : jsstring) : option jsstring :=
  if truthy s then Some s else None.

(** [v || d] where [v] is a string or [undefined] and [d] a string. *)
Definition or_default (v : option jsstring) (d : jsstring) : jsstring :=
  match v with
  | Some s => if truthy s then s else d
  | None => d
  end.

(** The code units [String.prototype.trim] strips: ECMAScript WhiteSpace
    (TAB, VT, FF, SP, NBSP, ZWNBSP and the Unicode space separators) and
    LineTerminator (LF, CR, LS, PS). *)
Definition is_whitespace (c : N) : bool :=
  ((9 <=? c) && (c <=? 13) || (c =? 32) || (c =? 160) || (c =? 5760)
   || (8192 <=? c) && (c <=? 8202) || (c =? 8232) || (c =? 8233)
   || (c =? 8239) || (c =? 8287) || (c =? 12288) || (c =? 65279))%N.

Fixpoint trimStart (s : jsstring) : jsstring :=
  match s with
  | c :: s' => if is_whitespace c then trimStart s' else s
  | [] => []
  end.

Definition trimEnd (s : jsstring) : jsstring := rev (trimStart (rev s)).

(** [s.trim()] *)
Definition trim (s : jsstring) : jsstring := trimEnd (trimStart s).

(** The string is empty or holds nothing but white space. *)
Definition whitespace_only (s : jsstring) : bool := forallb is_whitespace s.

(** [s.split(sep)] for a separator of one code unit. *)
Fixpoint split (sep : N) (s : jsstring) : list jsstring :=
  match s with
  | [] => [[]]
  | c :: s' =>
      if N.eqb c sep then [] :: split sep s'
      else match split sep s' with
           | p :: ps => (c :: p) :: ps
           | [] => [[c]]
           end
  end.

(** [parts[i]] for an index inside the array. *)
Definition at_index (parts : list jsstring) (i : nat) : jsstring :=
  nth i parts [].

(** *** JSON.stringify on the objects the widget serializes *)

Definition hex_digit (n : N) : N :=
  (if n <? 10 then 48 + n else 87 + n)%N.

(** [\uXXXX] with lower-case hexadecimal digits. *)
Definition unicode_escape (c : N) : jsstring :=
  [92; 117; hex_digit ((c / 4096) mod 16); hex_digit ((c / 256) mod 16);
   hex_digit ((c / 16) mod 16); hex_digit (c mod 16)]%N.

Definition is_lead_surrogate (c : N) : bool := ((55296 <=? c) && (c <=? 56319))%N.
Definition is_trail_surrogate (c : N) : bool := ((56320 <=? c) && (c <=? 57343))%N.

(** One code unit that is not the first half of a surrogate pair. *)
Definition quote_unit (c : N) : jsstring :=
  (if c =? 8 then [92; 98]
   else if c =? 9 then [92; 116]
   else if c =? 10 then [92; 110]
   else if c =? 12 then [92; 102]
   else if c =? 13 then [92; 114]
   else if c =? 34 then [92; 34]
   else if c =? 92 then [92; 92]
   else if (c <? 32) || is_lead_surrogate c || is_trail_surrogate c
        then unicode_escape c
   else [c])%N.

(** The characters of QuoteJSONString between the quotes: well-formed
    surrogate pairs pass through, lone surrogates are escaped. *)
Fixpoint quote_chars (s : jsstring) : jsstring :=
  match s with
  | [] => []
  | c :: rest =>
      if is_lead_surrogate c then
        match rest with
        | d :: rest' =>
            if is_trail_surrogate d then c :: d :: quote_chars rest'
            else unicode_escape c ++ quote_chars rest
        | [] => unicode_escape c
        end
      else quote_unit c ++ quote_chars rest
  end.

Definition quote (s : jsstring) : jsstring := [34%N] ++ quote_chars s ++ [34%N].

(** The members JSON.stringify emits for an object whose property values
    are strings or [undefined]: properties holding [undefined] are
    skipped, the others keep their order. *)
Fixpoint serialized_members (props : list (jsstring * option jsstring))
  : list (jsstring * jsstring) :=
  match props with
  | [] => []
  | (k, Some v) :: ps => (k, v) :: serialized_members ps
  | (_, None) :: ps => serialized_members ps
  end.

Fixpoint join (sep : jsstring) (parts : list jsstring) : jsstring :=
  match parts with
  | [] => []
  | [p] => p
  | p :: ps => p ++ sep ++ join sep ps
  end.

Definition render_member (m : jsstring * jsstring) : jsstring :=
  quote (fst m) ++ [58%N] ++ quote (snd m).

Definition render_object (ms : list (jsstring * jsstring)) : jsstring :=
  [123%N] ++ join [44%N] (map render_member ms) ++ [125%N].

(** [JSON.stringify(o)] (no replacer, no indentation). *)
Definition JSON_stringify (props : list (jsstring * option jsstring)) : jsstring :=
  render_object (serialized_members props).

(** *** Values read from a parsed response and stored in messages

    An object lists its own properties in creation order, each name
    once; numbers are the rationals that finite doubles are. *)

#[warnings="-register-all"]
Inductive value : Type :=
| undefined
| null
| boolean (b : bool)
| number (q : Q)
| str (s : jsstring)
| array (elems : list value)
| object (props : list (jsstring * value)).

Fixpoint own_property (k : jsstring) (props : list (jsstring * value)) : value :=
  match props with
  | [] => undefined
  | (k', v) :: ps => if str_eqb k k' then v else own_property k ps
  end.

(** [v.k] for a property name [k] that no prototype defines ([answer],
    [sources], [confidence], [text], ...): [None] is the TypeError raised
    on [null] and [undefined]; primitives and arrays yield [undefined]. *)
Definition get (v : value) (k : jsstring) : option value :=
  match v with
  | undefined | null => None
  | object props => Some (own_property k props)
  | _ => Some undefined
  end.

End JS.

Import JS.

(** ** React state, effects and the environment of a widget *)

(** The [useState] cells of a component instance. *)
Record State : Type := mkState {
  isOpen : bool;
  messages : list value;
  inputValue : jsstring;
  isLoading : bool;
  currentModule : jsstring;
  currentChapter : jsstring
}.

(** The argument of [fetch]. *)
Record Request : Type := mkRequest {
  url : jsstring;
  method : jsstring;
  headers : list (jsstring * jsstring);
  body : jsstring
}.

(** What a handler does, in program order. [setMessages_append m] is the
    functional update [setMessages(prev => [...prev, m])]. *)
Inductive Effect : Type :=
| setIsOpen (b : bool)
| setMessages_append (m : value)
| setInputValue (v : jsstring)
| setIsLoading (b : bool)
| setCurrentModule (m : jsstring)
| setCurrentChapter (c : jsstring)
| fetch (r : Request)
| console_error
| preventDefault.

(** The clock as read while a message object is built: [Date.now()] and
    [new Date().toISOString()]. *)
Record Clock : Type := mkClock {
  Date_now : Z;
  Date_toISOString : jsstring
}.

(** How [await response.json()] ends once a response has arrived. *)
Inductive BodyOutcome : Type :=
| body_json (data : value)
| body_unparseable.

(** How [await fetch(...)] ends: the promise rejects (network failure) or
    resolves to a response with a status and a body not yet read. *)
Inductive FetchOutcome : Type :=
| fetch_rejected
| fetch_response (status : Z) (payload : BodyOutcome).

(** [response.ok] *)
Definition response_ok (status : Z) : bool :=
  ((200 <=? status) && (status <=? 299))%Z.

Definition apply_effect (s : State) (e : Effect) : State :=
  match e with
  | setIsOpen b =>
      mkState b (messages s) (inputValue s) (isLoading s) (currentModule s) (currentChapter s)
  | setMessages_append m =>
      mkState (isOpen s) (messages s ++ [m]) (inputValue s) (isLoading s)
              (currentModule s) (currentChapter s)
  | setInputValue v =>
      mkState (isOpen s) (messages s) v (isLoading s) (currentModule s) (currentChapter s)
  | setIsLoading b =>
      mkState (isOpen s) (messages s) (inputValue s) b (currentModule s) (currentChapter s)
  | setCurrentModule m =>
      mkState (isOpen s) (messages s) (inputValue s) (isLoading s) m (currentChapter s)
  | setCurrentChapter c =>
      mkState (isOpen s) (messages s) (inputValue s) (isLoading s) (currentModule s) c
  | fetch _ | console_error | preventDefault => s
  end.

(** The state after the updates of a handler have been flushed. *)
Definition run (s : State) (effs : list Effect) : State :=
  fold_left apply_effect effs s.

(** The requests a handler issued. *)
Fixpoint fetches (effs : list Effect) : list Request :=
  match effs with
  | [] => []
  | fetch r :: rest => r :: fetches rest
  | _ :: rest => fetches rest
  end.

(** The messages a handler appended. *)
Fixpoint appended (effs : list Effect) : list value :=
  match effs with
  | [] => []
  | setMessages_append m :: rest => m :: appended rest
  | _ :: rest => appended rest
  end.

Definition initial_state : State := mkState false [] [] false [] [].

(** ** The Docusaurus widget

    [website/src/components/ChatbotWidget/ChatbotWidget.jsx]. A handler reads the state cells of the render that created
    it (argument [s]), whatever updates have been queued since. *)

Module ChatbotWidget.

(** [process.env.REACT_APP_CHATBOT_API_URL || 'http://localhost:8000'] *)
Definition API_BASE_URL (env_url : option jsstring) : jsstring :=
  or_default env_url (js "http://localhost:8000").

Definition toggleChatbot (s : State) : list Effect :=
  [setIsOpen (negb (isOpen s))].

(** [!inputValue.trim() || isLoading], the test of the early [return]. *)
Definition sendMessage_guard (s : State) : bool :=
  negb (truthy (trim (inputValue s))) || isLoading s.

Definition userMessage (s : State) (clk : Clock) : value :=
  object [(js "id", number (inject_Z (Date_now clk)));
          (js "text", str (inputValue s));
          (js "sender", str (js "user"));
          (js "timestamp", str (Date_toISOString clk))].

Definition requestBody (s : State) : list (jsstring * option jsstring) :=
  [(js "question", Some (inputValue s));
   (js "module_context", or_undefined (currentModule s));
   (js "chapter_context", or_undefined (currentChapter s))].

Definition chat_request (env_url : option jsstring) (s : State) : Request :=
  {| url := API_BASE_URL env_url ++ js "/chat";
     method := js "POST";
     headers := [(js "Content-Type", js "application/json")];
     body := JSON_stringify (requestBody s) |}.

(** [sendMessage] up to its first [await]. *)
Definition sendMessage_start (env_url : option jsstring) (s : State) (clk : Clock)
  : list Effect :=
  if sendMessage_guard s then []
  else [setMessages_append (userMessage s clk);
        setInputValue [];
        setIsLoading true;
        fetch (chat_request env_url s)].

(** The object literal built from [data]; [None] when reading a property
    of [data] throws. *)
Definition botMessage (clk : Clock) (data : value) : option value :=
  match get data (js "answer"), get data (js "sources"), get data (js "confidence") with
  | Some answer, Some sources, Some confidence =>
      Some (object [(js "id", number (inject_Z (Date_now clk + 1)));
                    (js "text", answer);
                    (js "sender", str (js "bot"));
                    (js "sources", sources);
                    (js "confidence", confidence);
                    (js "timestamp", str (Date_toISOString clk))])
  | _, _, _ => None
  end.

(** The rest of the [try] block: [None] when it throws. *)
Definition try_block (clk : Clock) (o : FetchOutcome) : option value :=
  match o with
  | fetch_rejected => None
  | fetch_response status payload =>
      if negb (response_ok status) then None
      else match payload with
           | body_unparseable => None
           | body_json data => botMessage clk data
           end
  end.

Definition errorMessage (clk : Clock) : value :=
  object [(js "id", number (inject_Z (Date_now clk + 1)));
          (js "text",
           str (js "Sorry, I encountered an error processing your question. Please try again."));
          (js "sender", str (js "bot"));
          (js "isError", boolean true);
          (js "timestamp", str (Date_toISOString clk))].

(** [sendMessage] from the settlement of [fetch] on: the [try] block, the
    [catch] and the [finally]. *)
Definition sendMessage_resume (clk : Clock) (o : FetchOutcome) : list Effect :=
  match try_block clk o with
  | Some bot => [setMessages_append bot; setIsLoading false]
  | None => [console_error; setMessages_append (errorMessage clk); setIsLoading false]
  end.

Definition handleKeyPress (env_url : option jsstring) (s : State)
  (key : jsstring) (shiftKey : bool) (clk : Clock) : list Effect :=
  if str_eqb key (js "Enter") && negb shiftKey
  then preventDefault :: sendMessage_start env_url s clk
  else [].

(** The mount effect ([useEffect] with no dependencies) on
    [window.location.pathname]. *)
Definition context_effect (pathname : jsstring) : list Effect :=
  let pathParts := split 47 pathname in
  if 3 <=? List.length pathParts then
    let moduleSection := at_index pathParts 2 in
    (if negb (str_eqb moduleSection (js "modules"))
     then [setCurrentModule moduleSection] else [])
    ++ (if 4 <=? List.length pathParts
        then [setCurrentChapter (at_index pathParts 3)] else [])
  else [].

(** The [disabled] attributes of the textarea and of the Send button. *)
Definition textarea_disabled (s : State) : bool := isLoading s.

Definition send_disabled (s : State) : bool :=
  negb (truthy (trim (inputValue s))) || isLoading s.

End ChatbotWidget.

(** ** The original component

    [frontend/src/components/RAGChatbot.js]. A handler reads the state cells of the render that created
    it (argument [s]), whatever updates have been queued since. *)

Module RAGChatbot.

(** [process.env.REACT_APP_CHATBOT_API_URL || 'http://localhost:8000'] *)
Definition API_BASE_URL (env_url : option jsstring) : jsstring :=
  or_default env_url (js "http://localhost:8000").

Definition toggleChatbot (s : State) : list Effect :=
  [setIsOpen (negb (isOpen s))].

(** [!inputValue.trim() || isLoading], the test of the early [return]. *)
Definition sendMessage_guard (s : State) : bool :=
  negb (truthy (trim (inputValue s))) || isLoading s.

Definition userMessage (s : State) (clk : Clock) : value :=
  object [(js "id", number (inject_Z (Date_now clk)));
          (js "text", str (inputValue s));
          (js "sender", str (js "user"));
          (js "timestamp", str (Date_toISOString clk))].

Definition requestBody (s : State) : list (jsstring * option jsstring) :=
  [(js "question", Some (inputValue s));
   (js "module_context", or_undefined (currentModule s));
   (js "chapter_context", or_undefined (currentChapter s))].

Definition chat_request (env_url : option jsstring) (s : State) : Request :=
  {| url := API_BASE_URL env_url ++ js "/chat";
     method := js "POST";
     headers := [(js "Content-Type", js "application/json")];
     body := JSON_stringify (requestBody s) |}.

(** [sendMessage] up to its first [await]. *)
Definition sendMessage_start (env_url : option jsstring) (s : State) (clk : Clock)
  : list Effect :=
  if sendMessage_guard s then []
  else [setMessages_append (userMessage s clk);
        setInputValue [];
        setIsLoading true;
        fetch (chat_request env_url s)].

(** The object literal built from [data]; [None] when reading a property
    of [data] throws. *)
Definition botMessage (clk : Clock) (data : value) : option value :=
  match get data (js "answer"), get data (js "sources"), get data (js "confidence") with
  | Some answer, Some sources, Some confidence =>
      Some (object [(js "id", number (inject_Z (Date_now clk + 1)));
                    (js "text", answer);
                    (js "sender", str (js "bot"));
                    (js "sources", sources);
                    (js "confidence", confidence);
                    (js "timestamp", str (Date_toISOString clk))])
  | _, _, _ => None
  end.

(** The rest of the [try] block: [None] when it throws. *)
Definition try_block (clk : Clock) (o : FetchOutcome) : option value :=
  match o with
  | fetch_rejected => None
  | fetch_response status payload =>
      if negb (response_ok status) then None
      else match payload with
           | body_unparseable => None
           | body_json data => botMessage clk data
           end
  end.

Definition errorMessage (clk : Clock) : value :=
  object [(js "id", number (inject_Z (Date_now clk + 1)));
          (js "text",
           str (js "Sorry, I encountered an error processing your question. Please try again."));
          (js "sender", str (js "bot"));
          (js "isError", boolean true);
          (js "timestamp", str (Date_toISOString clk))].

(** [sendMessage] from the settlement of [fetch] on: the [try] block, the
    [catch] and the [finally]. *)
Definition sendMessage_resume (clk : Clock) (o : FetchOutcome) : list Effect :=
  match try_block clk o with
  | Some bot => [setMessages_append bot; setIsLoading false]
  | None => [console_error; setMessages_append (errorMessage clk); setIsLoading false]
  end.

Definition handleKeyPress (env_url : option jsstring) (s : State)
  (key : jsstring) (shiftKey : bool) (clk : Clock) : list Effect :=
  if str_eqb key (js "Enter") && negb shiftKey
  then preventDefault :: sendMessage_start env_url s clk
  else [].

(** The mount effect on [window.location.pathname]. *)
Definition context_effect (pathname : jsstring) : list Effect :=
  let pathParts := split 47 pathname in
  if 3 <=? List.length pathParts then
    let moduleSection := at_index pathParts 2 in
    (if negb (str_eqb moduleSection (js "modules"))
     then [setCurrentModule moduleSection] else [])
    ++ (if 4 <=? List.length pathParts
        then [setCurrentChapter (at_index pathParts 3)] else [])
  else [].

(** The [disabled] attributes of the textarea and of the Send button. *)
Definition textarea_disabled (s : State) : bool := isLoading s.

Definition send_disabled (s : State) : bool :=
  negb (truthy (trim (inputValue s))) || isLoading s.

End RAGChatbot.

(** ** A widget instance on a page *)

(** [rendered] holds the state cells as the last committed render read
    them: the handlers of that render close over these values and its
    controls show them. [view] holds the state cells now, with every
    update made so far. [in_flight] lists the requests whose [fetch] has
    not settled yet (oldest first), [issued] every request so far. *)
Record World : Type := mkWorld {
  rendered : State;
  view : State;
  in_flight : list Request;
  issued : list Request
}.

(** The events of an instance: those of its controls, the settlement of
    a pending request, and React committing a new render of the
    component. *)
Inductive Event : Type :=
| Click_toggle
| Change (v : jsstring)
| KeyPress (key : jsstring) (shiftKey : bool) (clk : Clock)
| Click_send (clk : Clock)
| Settle (clk : Clock) (o : FetchOutcome)
| Rerender.

(** The code run for an event by the render that read the cells [s]. *)
Definition handler (env_url : option jsstring) (s : State) (ev : Event) : list Effect :=
  match ev with
  | Click_toggle => ChatbotWidget.toggleChatbot s
  | Change v => [setInputValue v]
  | KeyPress key shiftKey clk => ChatbotWidget.handleKeyPress env_url s key shiftKey clk
  | Click_send clk => ChatbotWidget.sendMessage_start env_url s clk
  | Settle clk o => ChatbotWidget.sendMessage_resume clk o
  | Rerender => []
  end.

(** One event. The handler of a control is the one of the last committed
    render: it reads [rendered], and its updates are applied to [view]. A
    settlement resumes the oldest pending [sendMessage], whose remaining
    code reads no state cell; without a pending request there is nothing
    to settle. A new render reads the cells as they are. *)
Definition step (env_url : option jsstring) (w : World) (ev : Event) : World :=
  match ev with
  | Rerender => mkWorld (view w) (view w) (in_flight w) (issued w)
  | Settle _ _ =>
      match in_flight w with
      | [] => w
      | _ :: rest =>
          mkWorld (rendered w) (run (view w) (handler env_url (rendered w) ev)) rest
                  (issued w)
      end
  | _ =>
      let effs := handler env_url (rendered w) ev in
      mkWorld (rendered w) (run (view w) effs)
              (in_flight w ++ fetches effs) (issued w ++ fetches effs)
  end.

Definition play (env_url : option jsstring) (w : World) (evs : list Event) : World :=
  fold_left (step env_url) evs w.

(** The instance once mounted on a page: the first render has read the
    initial cells, and the mount effect has made its updates. *)
Definition mounted (pathname : jsstring) : World :=
  mkWorld initial_state (run initial_state (ChatbotWidget.context_effect pathname)) [] [].

(** An event asks to send the question: a click on Send, or Enter
    without Shift in the textarea. *)
Definition is_send (ev : Event) : bool :=
  match ev with
  | Click_send _ => true
  | KeyPress key shiftKey _ => str_eqb key (js "Enter") && negb shiftKey
  | _ => false
  end.

(** Controls drawn from the cells [s] can dispatch the event: the chat
    window is rendered only when open, and a disabled control fires no
    event. *)
Definition dispatchable (s : State) (ev : Event) : bool :=
  match ev with
  | Click_toggle => true
  | Change _ | KeyPress _ _ _ => isOpen s && negb (ChatbotWidget.textarea_disabled s)
  | Click_send _ => isOpen s && negb (ChatbotWidget.send_disabled s)
  | Settle _ _ => true
  | Rerender => true
  end.

(** ** The retrieval service behind [/chat]

    The backend the task list names ([backend/src/main.py],
    [vector_store.py], [rag_service.py]) lives outside the
    front-end sources embedded above; its operations are modelled from
    the specification. Similarity
    scores and confidences are rationals. *)

Module Backend.


(** Modelled from the spec: the Chunk of the data model (the backend's
    own record is missing). *)
Record Chunk : Type := mkChunk {
  chunk_id : string;
  source_path : string;
  module_tag : string;
  chapter_tag : string;
  position : nat;
  chunk_text : string;
  embedding : list Q
}.

(** Modelled from the spec: the Query of the data model. *)
Record Query : Type := mkQuery {
  question : string;
  module_filter : option string;
  chapter_filter : option string;
  timestamp : Z
}.

(** Modelled from the spec: the Answer of the data model. *)
Record Answer : Type := mkAnswer {
  answer_text : string;
  confidence : Q;
  sources : list string
}.

(** Modelled from the spec: the configuration surface of section 6 that
    retrieval and synthesis read. The combining function of the
    confidence and the agreement measure are left open by the spec and
    are settings here. *)
Record Config : Type := mkConfig {
  top_k : nat;
  min_similarity : Q;
  low_confidence_threshold : Q;
  agreement : list Chunk -> Q;
  combine : Q -> Q -> Q
}.

(** Modelled from the spec: the index of section 4.2 as seen by the
    retriever, the fixed embedding function and the similarity measure. *)
Record Index : Type := mkIndex {
  embed : string -> list Q;
  similarity : list Q -> list Q -> Q
}.

(** Modelled from the spec: a RetrievalResult, (chunk, score) pairs. *)
Definition RetrievalResult : Type := list (Chunk * Q).

(** Modelled from the spec: an optional filter (section 3, Query) admits
    every tag when absent and only the equal tag when present. *)
Definition filter_admits (f : option string) (tag : string) : bool :=
  match f with
  | None => true
  | Some wanted => String.eqb wanted tag
  end.

(** Modelled from the spec: the module/chapter filter of section 4.3. *)
Definition in_scope (q : Query) (c : Chunk) : bool :=
  filter_admits (module_filter q) (module_tag c)
  && filter_admits (chapter_filter q) (chapter_tag c).

(** Modelled from the spec: the similarity between the query embedding
    and the embedding of a chunk (section 4.3). *)
Definition score (idx : Index) (q : Query) (c : Chunk) : Q :=
  similarity idx (embed idx (question q)) (embedding c).

(** Modelled from the spec: a candidate meets the minimum-similarity
    cutoff. *)
Definition meets_cutoff (cfg : Config) (e : Chunk * Q) : bool :=
  Qle_bool (min_similarity cfg) (snd e).

(** Modelled from the spec: the order of section 4.3, descending
    similarity, ties broken by the earlier sequence position. *)
Definition ranks_before (a b : Chunk * Q) : bool :=
  match Qcompare (snd a) (snd b) with
  | Gt => true
  | Eq => position (fst a) <=? position (fst b)
  | Lt => false
  end.

(** Modelled from the spec: ranking as a stable insertion into the
    ranked list (the spec fixes the order, not the algorithm). *)
Fixpoint insert_ranked (e : Chunk * Q) (l : RetrievalResult) : RetrievalResult :=
  match l with
  | [] => [e]
  | x :: l' => if ranks_before e x then e :: l else x :: insert_ranked e l'
  end.

(** Modelled from the spec: the candidates in ranked order. *)
Definition rank (l : list (Chunk * Q)) : RetrievalResult :=
  fold_right insert_ranked [] l.

(** Modelled from the spec: ranking of an already scoped candidate set,
    top-K of the candidates that meet the cutoff. *)
Definition rank_candidates (cfg : Config) (idx : Index) (q : Query)
  (candidates : list Chunk) : RetrievalResult :=
  firstn (top_k cfg)
    (rank (filter (meets_cutoff cfg) (map (fun c => (c, score idx q c)) candidates))).

(** Modelled from the spec: [retrieve] of section 4.3. The filter is a
    hard pre-filter: ranking only ever sees the chunks in scope. *)
Definition retrieve (cfg : Config) (idx : Index) (corpus : list Chunk) (q : Query)
  : RetrievalResult :=
  rank_candidates cfg idx q (filter (in_scope q) corpus).

(** Modelled from the spec: the text of the refusal of section 3. *)
Definition refusal_text : string :=
  "This question is not covered by course content."%string.

(** Modelled from the spec: the refusal answer of section 3. Confidence
    ranges over [0,1]; the refusal reports the least value. *)
Definition refusal : Answer := mkAnswer refusal_text 0%Q [].

(** Modelled from the spec: source identifiers are deduplicated and keep
    the order of relevance (section 6), first occurrences kept. *)
Fixpoint dedup (ids : list string) : list string :=
  match ids with
  | [] => []
  | i :: rest => i :: filter (fun j => negb (String.eqb i j)) (dedup rest)
  end.

(** Modelled from the spec: the similarity of the top result, the first
    input of the confidence (section 4.4). *)
Definition top_score (r : RetrievalResult) : Q :=
  match r with
  | [] => 0%Q
  | (_, sc) :: _ => sc
  end.

(** Modelled from the spec: one call of the generation collaborator,
    its input being the retrieved chunk texts and the question
    (section 9). *)
Definition GenerationCall : Type := (list string * string)%type.

(** Modelled from the spec: [synthesize] returns an Answer or fails with
    [SynthesisError] (section 4.4). *)
Inductive SynthesisOutcome : Type :=
| synthesized (a : Answer)
| SynthesisError.

(** Modelled from the spec: [synthesize] of section 4.4. The generation
    capability is a collaborator [generate] that may be unreachable
    ([None]); the first component of the result lists the calls made to
    it. *)
Definition synthesize (cfg : Config) (generate : GenerationCall -> option string)
  (q : Query) (r : RetrievalResult) : list GenerationCall * SynthesisOutcome :=
  match r with
  | [] => ([], synthesized refusal)
  | _ :: _ =>
      let call := (map (fun e => chunk_text (fst e)) r, question q) in
      match generate call with
      | Some text =>
          ([call],
           synthesized
             (mkAnswer text
                (combine cfg (top_score r) (agreement cfg (map fst r)))
                (dedup (map (fun e => chunk_id (fst e)) r))))
      | None => ([call], SynthesisError)
      end
  end.

(** Modelled from the spec: the request of section 6. *)
Record ChatRequest : Type := mkChatRequest {
  req_question : string;
  module_context : option string;
  chapter_context : option string
}.

(** Modelled from the spec: a 200 response with the fields of the Answer,
    or an error response by failure kind (sections 6 and 7). *)
Inductive ChatResponse : Type :=
| ok_200 (answer : string) (srcs : list string) (conf : Q)
| ValidationError
| upstream_unavailable.

(** Modelled from the spec: the Chat Session API of section 4.5,
    validation, retrieval, then synthesis, the Answer returned verbatim. *)
Definition chat (cfg : Config) (idx : Index) (generate : GenerationCall -> option string)
  (corpus : list Chunk) (now : Z) (req : ChatRequest)
  : list GenerationCall * ChatResponse :=
  if String.eqb (req_question req) EmptyString then ([], ValidationError)
  else
    let q := mkQuery (req_question req) (module_context req) (chapter_context req) now in
    match synthesize cfg generate q (retrieve cfg idx corpus q) with
    | (calls, synthesized a) => (calls, ok_200 (answer_text a) (sources a) (confidence a))
    | (calls, SynthesisError) => (calls, upstream_unavailable)
    end.

(** Modelled from the spec: the order a RetrievalResult must respect
    between an earlier and a later entry. *)
Definition ranked (a b : Chunk * Q) : Prop :=
  (snd b <= snd a)%Q /\ ((snd a == snd b)%Q -> (position (fst a) <= position (fst b))%nat).

End Backend.

(** ** The end-to-end scenario of the specification

    Two chunks, [A] on ROS 2 and [B] on simulation, with two-dimensional
    embeddings and the dot product as similarity. *)

Module Scenario.

Import Backend.

Definition chunk_A : Chunk :=
  mkChunk "A" "modules/ros2/intro.md" "ros2" "intro" 0
          "ROS 2 uses nodes and topics" [1%Q; 0%Q].

Definition chunk_B : Chunk :=
  mkChunk "B" "modules/simulation/intro.md" "simulation" "intro" 0
          "Gazebo simulates physics" [0%Q; 1%Q].

Definition corpus : list Chunk := [chunk_A; chunk_B].

Fixpoint dot (u v : list Q) : Q :=
  match u, v with
  | x :: u', y :: v' => (x * y + dot u' v')%Q
  | _, _ => 0%Q
  end.

Definition embed_question (text : string) : list Q :=
  if String.eqb text "What is a ROS 2 node?" then [(9 # 10)%Q; (1 # 10)%Q]
  else if String.eqb text "What is a node?" then [(8 # 10)%Q; (1 # 10)%Q]
  else [0%Q; 0%Q].

Definition index : Index := mkIndex embed_question dot.

Definition config : Config :=
  mkConfig 3 (1 # 2)%Q (3 # 10)%Q (fun _ => 1%Q) (fun top agree => (top * agree)%Q).

Definition generate (call : GenerationCall) : option string :=
  Some (String.concat " " (fst call)).

Definition ros_request : ChatRequest :=
  mkChatRequest "What is a ROS 2 node?" (Some "ros2"%string) None.

Definition quantum_query : Query :=
  mkQuery "What is quantum computing?" None None 0.

End Scenario.

(** ** A page of the course, for concrete runs of the widget *)

Module Page.

Definition pathname : jsstring := js "/modules/ros2/intro".

Definition clock : Clock := mkClock 1700000000000 (js "2023-11-14T22:13:20.000Z").

(** The widget open on the page, a question typed in. *)
Definition typed : State :=
  mkState true [] (js "What is a ROS 2 node?") false (js "ros2") (js "intro").

(** The same widget after an earlier exchange. *)
Definition typed_later : State :=
  mkState true
    [object [(js "text", str (js "hello")); (js "sender", str (js "user"))];
     object [(js "text", str (js "Hi!")); (js "sender", str (js "bot"))]]
    (js "What is a ROS 2 node?") false (js "ros2") (js "intro").


(** A response body that follows the contract. *)
Definition answer_data : value :=
  object [(js "answer", str (js "A node is a process that performs computation."));
          (js "sources", array [str (js "A")]);
          (js "confidence", number (9 # 10))].

End Page.

(** ** What the message list displays

    The conditions of the JSX of both components (the message loop, lines
    217-270 of [ChatbotWidget.jsx]). [None] is the TypeError of a
    property read on [null] or [undefined]. *)

Module Render.

(** [v === s] for a string [s]. *)
Definition strict_eq_str (v : value) (s : jsstring) : bool :=
  match v with
  | str t => str_eqb t s
  | _ => false
  end.

(** Truthiness of a value. *)
Definition truthy_value (v : value) : bool :=
  match v with
  | undefined | null => false
  | boolean b => b
  | number q => negb (Qeq_bool q 0)
  | str s => truthy s
  | array _ | object _ => true
  end.

(** [message.sender === 'user'], which aligns and colours a message. *)
Definition from_user (message : value) : option bool :=
  match get message (js "sender") with
  | Some sender => Some (strict_eq_str sender (js "user"))
  | None => None
  end.

(** [message.sender === 'bot' && !message.isError], the guard of the
    block with the confidence and the sources: the block is evaluated
    only when it holds. *)
Definition meta_guard (message : value) : option bool :=
  match get message (js "sender") with
  | None => None
  | Some sender =>
      if strict_eq_str sender (js "bot") then
        match get message (js "isError") with
        | Some isError => Some (negb (truthy_value isError))
        | None => None
        end
      else Some false
  end.

(** A line of the list of sources: a source, or the count of the
    sources left out. *)
Inductive SourceLine : Type :=
| listed (source : value)
| and_more (count : nat).

(** The children of the [ul] for a [sources] array:
    [sources.slice(0, 3).map(...)], then the line with
    [sources.length - 3] when [sources.length > 3]. *)
Definition source_lines (sources : list value) : list SourceLine :=
  map listed (firstn 3 sources)
  ++ (if 3 <? List.length sources
      then [and_more (List.length sources - 3)] else []).

(** The [details] element for a [sources] array, rendered when
    [sources.length > 0]; [None] when it is not rendered. *)
Definition sources_details (sources : list value) : option (list SourceLine) :=
  if 0 <? List.length sources then Some (source_lines sources) else None.

(** [messages.length === 0], the condition of the welcome text. *)
Definition shows_welcome (s : State) : bool :=
  List.length (messages s) =? 0.

End Render.

(** ** The injector of the widget

    [website/src/components/ChatbotInjector.jsx]. The document is the
    list of the children of [body], each an element with its tag, its id
    (empty when it has none) and its children; no element outside [body]
    carries the id looked up. *)

Module ChatbotInjector.

#[warnings="-register-all"]
Inductive Node : Type :=
| element (tag : jsstring) (id : jsstring) (children : list Node).

Definition Document : Type := list Node.

(** The element or one of its descendants has the id. *)
Fixpoint has_id (key : jsstring) (n : Node) : bool :=
  match n with
  | element _ i kids => str_eqb i key || existsb (has_id key) kids
  end.

(** Where [document.getElementById(key)] finds its element, the first
    one in document order: the index of the child of [body] that holds
    it, and whether it is that child itself. *)
Fixpoint getElementById (key : jsstring) (doc : Document) : option (nat * bool) :=
  match doc with
  | [] => None
  | element _ i kids :: rest =>
      if str_eqb i key then Some (O, true)
      else if existsb (has_id key) kids then Some (O, false)
      else match getElementById key rest with
           | Some (k, direct) => Some (S k, direct)
           | None => None
           end
  end.

Fixpoint remove_at {A : Type} (k : nat) (l : list A) : list A :=
  match l, k with
  | [], _ => []
  | _ :: rest, O => rest
  | x :: rest, S k' => x :: remove_at k' rest
  end.

(** The mount effect: a [div] with id [chatbot-container] appended to
    [body]. *)
Definition mount_effect (doc : Document) : Document :=
  doc ++ [element (js "div") (js "chatbot-container") []].

(** The cleanup of the effect: [body.removeChild] of the element found
    by id, which throws ([None]) when that element is not a child of
    [body]. *)
Definition cleanup (doc : Document) : option Document :=
  match getElementById (js "chatbot-container") doc with
  | None => Some doc
  | Some (k, true) => Some (remove_at k doc)
  | Some (_, false) => None
  end.

(** The render: a portal into the element found by id, or [null]
    ([None]). *)
Definition render (doc : Document) : option (nat * bool) :=
  getElementById (js "chatbot-container") doc.

End ChatbotInjector.

(** ** Reading a serialized body back

    A strict reader for the JSON text [JSON_stringify] writes: an object
    whose members are strings, without white space. *)

Module JSONRead.

Definition hex_value (c : N) : option N :=
  (if (48 <=? c) && (c <=? 57) then Some (c - 48)
   else if (97 <=? c) && (c <=? 102) then Some (c - 87)
   else if (65 <=? c) && (c <=? 70) then Some (c - 55)
   else None)%N.

(** The character a two-character escape stands for. *)
Definition unescape (e : N) : option N :=
  (if e =? 98 then Some 8
   else if e =? 116 then Some 9
   else if e =? 110 then Some 10
   else if e =? 102 then Some 12
   else if e =? 114 then Some 13
   else if e =? 34 then Some 34
   else if e =? 92 then Some 92
   else if e =? 47 then Some 47
   else None)%N.

(** The characters of a string up to its closing quote, decoded, and
    the text after that quote. *)
Fixpoint read_chars (t : jsstring) : option (jsstring * jsstring) :=
  match t with
  | [] => None
  | c :: t' =>
      if (c =? 34)%N then Some ([], t')
      else if (c =? 92)%N then
        match t' with
        | [] => None
        | e :: t'' =>
            if (e =? 117)%N then
              match t'' with
              | h1 :: h2 :: h3 :: h4 :: t4 =>
                  match hex_value h1, hex_value h2, hex_value h3, hex_value h4,
                        read_chars t4 with
                  | Some a, Some b, Some c', Some d, Some (s, rest) =>
                      Some ((4096 * a + 256 * b + 16 * c' + d)%N :: s, rest)
                  | _, _, _, _, _ => None
                  end
              | _ => None
              end
            else
              match unescape e, read_chars t'' with
              | Some u, Some (s, rest) => Some (u :: s, rest)
              | _, _ => None
              end
        end
      else if (c <? 32)%N then None
      else match read_chars t' with
           | Some (s, rest) => Some (c :: s, rest)
           | None => None
           end
  end.

Definition read_string (t : jsstring) : option (jsstring * jsstring) :=
  match t with
  | c :: t' => if (c =? 34)%N then read_chars t' else None
  | [] => None
  end.

(** The members up to the closing brace, at most [fuel] of them. *)
Fixpoint read_members (fuel : nat) (t : jsstring)
  : option (list (jsstring * jsstring) * jsstring) :=
  match fuel with
  | O => None
  | S fuel' =>
      match read_string t with
      | Some (k, c :: t1) =>
          if (c =? 58)%N then
            match read_string t1 with
            | Some (v, d :: t2) =>
                if (d =? 44)%N then
                  match read_members fuel' t2 with
                  | Some (ms, rest) => Some ((k, v) :: ms, rest)
                  | None => None
                  end
                else if (d =? 125)%N then Some ([(k, v)], t2)
                else None
            | _ => None
            end
          else None
      | _ => None
      end
  end.

Definition parse_object (t : jsstring) : option (list (jsstring * jsstring)) :=
  match t with
  | c :: t' =>
      if (c =? 123)%N then
        match t' with
        | [d] => if (d =? 125)%N then Some [] else None
        | _ =>
            match read_members (List.length t') t' with
            | Some (ms, []) => Some ms
            | _ => None
            end
        end
      else None
  | [] => None
  end.

End JSONRead.

(** ** Shapes of a conversation *)

(** The senders of [n] completed exchanges. *)
Fixpoint turns (n : nat) : list (option value) :=
  match n with
  | O => []
  | S n' => Some (str (js "user")) :: Some (str (js "bot")) :: turns n'
  end.

Definition senders (s : State) : list (option value) :=
  map (fun m => get m (js "sender")) (messages s).

(** Every event of the trace is one that controls drawn from the state
    cells it meets can dispatch: no textarea or button event while the
    cells disable that control. *)
Fixpoint dispatched (env_url : option jsstring) (w : World) (evs : list Event) : bool :=
  match evs with
  | [] => true
  | ev :: rest =>
      dispatchable (view w) ev && dispatched env_url (step env_url w ev) rest
  end.

Definition is_rerender (ev : Event) : bool :=
  match ev with
  | Rerender => true
  | _ => false
  end.

(** The component is rendered anew between any two sends of the trace:
    every send is handled by a render committed after the send before
    it. [fresh] tells whether that holds for the first send to come. *)
Fixpoint rerendered_between_sends (fresh : bool) (evs : list Event) : bool :=
  match evs with
  | [] => true
  | ev :: rest =>
      if is_send ev then fresh && rerendered_between_sends false rest
      else rerendered_between_sends (fresh || is_rerender ev) rest
  end.

(** The value of the two tests the message loop makes on a message:
    [sender === 'user'], and the guard of the confidence and sources
    block. *)
Definition tests_as (m : value) (user guard : bool) : Prop :=
  Render.from_user m = Some user /\ Render.meta_guard m = Some guard.

(** The three messages [sendMessage] builds, each with the value of the
    two tests. *)
Definition message_shape (m : value) : Prop :=
  (exists s clk, m = ChatbotWidget.userMessage s clk /\ tests_as m true false)
  \/ (exists clk data, ChatbotWidget.botMessage clk data = Some m
                       /\ tests_as m false true)
  \/ (exists clk, m = ChatbotWidget.errorMessage clk /\ tests_as m false false).

(** The messages drawn as messages of the user, in order. *)
Definition user_messages (s : State) : list value :=
  filter (fun m => match Render.from_user m with
                   | Some true => true
                   | _ => false
                   end) (messages s).

(** * Properties *)

(** ** The retrieval service *)

Section Ranking.

Import Backend.

Lemma ranks_before_ranked (a b : Chunk * Q) :
  ranks_before a b = true -> ranked a b.
Proof.
  unfold ranks_before, ranked.
  destruct (Qcompare_spec (snd a) (snd b)) as [Heq | Hlt | Hgt]; intros H.
  - split.
    + rewrite Heq. apply Qle_refl.
    + intros _. now apply Nat.leb_le.
  - discriminate.
  - split.
    + now apply Qlt_le_weak.
    + intros Heq. rewrite Heq in Hgt. now apply Qlt_irrefl in Hgt.
Qed.

Lemma ranks_before_total (a b : Chunk * Q) :
  ranks_before a b = false -> ranked b a.
Proof.
  unfold ranks_before, ranked.
  destruct (Qcompare_spec (snd a) (snd b)) as [Heq | Hlt | Hgt]; intros H.
  - split.
    + rewrite Heq. apply Qle_refl.
    + intros _. apply Nat.leb_gt in H. lia.
  - split.
    + now apply Qlt_le_weak.
    + intros Heq. rewrite Heq in Hlt. now apply Qlt_irrefl in Hlt.
  - discriminate.
Qed.

Lemma ranked_trans (a b c : Chunk * Q) :
  ranked a b -> ranked b c -> ranked a c.
Proof.
  intros [Hab Pab] [Hbc Pbc]. split.
  - eapply Qle_trans; eassumption.
  - intros Hac.
    assert (Hba : (snd a == snd b)%Q).
    { apply Qle_antisym; [rewrite Hac | ]; assumption. }
    assert (Hcb : (snd b == snd c)%Q) by (rewrite <- Hba; exact Hac).
    specialize (Pab Hba). specialize (Pbc Hcb). lia.
Qed.

Lemma insert_ranked_In (e x : Chunk * Q) (l : RetrievalResult) :
  In x (insert_ranked e l) <-> x = e \/ In x l.
Proof.
  induction l as [| y l IH]; simpl.
  - intuition.
  - destruct (ranks_before e y); simpl; rewrite ?IH; intuition.
Qed.

Lemma insert_ranked_sorted (e : Chunk * Q) (l : RetrievalResult) :
  StronglySorted ranked l -> StronglySorted ranked (insert_ranked e l).
Proof.
  induction 1 as [| y l Hs IH Hy]; simpl.
  - constructor; constructor.
  - destruct (ranks_before e y) eqn:E.
    + constructor.
      * now constructor.
      * apply ranks_before_ranked in E.
        constructor; [exact E |].
        eapply Forall_impl; [| exact Hy].
        intros z Hz. now apply ranked_trans with y.
    + constructor; [exact IH |].
      apply Forall_forall. intros z Hz.
      apply insert_ranked_In in Hz. destruct Hz as [-> | Hz].
      * now apply ranks_before_total.
      * rewrite Forall_forall in Hy. now apply Hy.
Qed.

Lemma rank_sorted (l : list (Chunk * Q)) : StronglySorted ranked (rank l).
Proof.
  induction l as [| e l IH]; simpl.
  - constructor.
  - now apply insert_ranked_sorted.
Qed.

Lemma rank_In (x : Chunk * Q) (l : list (Chunk * Q)) : In x (rank l) <-> In x l.
Proof.
  induction l as [| e l IH]; simpl.
  - reflexivity.
  - rewrite insert_ranked_In, IH. intuition.
Qed.

Lemma firstn_In {A : Type} (n : nat) (l : list A) (x : A) :
  In x (firstn n l) -> In x l.
Proof.
  revert l. induction n as [| n IH]; intros [| y l]; simpl; try tauto.
  intros [-> | H]; auto.
Qed.

Lemma firstn_sorted {A : Type} (R : A -> A -> Prop) (n : nat) (l : list A) :
  StronglySorted R l -> StronglySorted R (firstn n l).
Proof.
  intros Hs. revert n. induction Hs as [| y l Hs IH Hy]; intros [| n]; simpl;
    try constructor.
  - apply IH.
  - apply Forall_forall. intros z Hz. apply firstn_In in Hz.
    rewrite Forall_forall in Hy. now apply Hy.
Qed.

(** Every entry of a retrieval result is a chunk of the corpus in the
    scope of the query, carries its similarity to the query, and meets
    the cutoff. *)
Lemma retrieve_In cfg idx corpus q (e : Chunk * Q) :
  In e (retrieve cfg idx corpus q) ->
  In (fst e) corpus /\ in_scope q (fst e) = true
  /\ snd e = score idx q (fst e) /\ (min_similarity cfg <= snd e)%Q.
Proof.
  unfold retrieve, rank_candidates. intros H.
  apply firstn_In, rank_In, filter_In in H. destruct H as [H Hcut].
  apply in_map_iff in H. destruct H as [c [<- Hc]].
  apply filter_In in Hc. destruct Hc as [Hc Hsc]. simpl.
  repeat split; auto.
  now apply Qle_bool_iff in Hcut.
Qed.

Lemma dedup_In (i : string) (ids : list string) : In i (dedup ids) -> In i ids.
Proof.
  induction ids as [| j ids IH]; simpl; [tauto |].
  intros [-> | H]; [now left |].
  apply filter_In in H. right. now apply IH.
Qed.

End Ranking.

Section Grounding.

Import Backend.

Lemma filter_none {A : Type} (f : A -> bool) (l : list A) :
  (forall x, In x l -> f x = false) -> filter f l = [].
Proof.
  induction l as [| y l IH]; simpl; intros H; [reflexivity |].
  rewrite (H y (or_introl eq_refl)). apply IH. intros x Hx. apply H. now right.
Qed.

Lemma retrieve_nothing cfg idx corpus q :
  (forall c, In c corpus -> in_scope q c = true ->
             (score idx q c < min_similarity cfg)%Q) ->
  retrieve cfg idx corpus q = [].
Proof.
  intros Hlow. unfold retrieve, rank_candidates.
  rewrite filter_none; [apply firstn_nil |].
  intros e He. apply in_map_iff in He. destruct He as [c [<- Hc]].
  apply filter_In in Hc. destruct Hc as [Hc Hsc].
  unfold meets_cutoff. simpl.
  destruct (Qle_bool (min_similarity cfg) (score idx q c)) eqn:E; [| reflexivity].
  apply Qle_bool_iff in E. specialize (Hlow c Hc Hsc).
  now apply Qlt_not_le in Hlow.
Qed.

(** C1. When no chunk in the scope of the query reaches the minimum
    similarity, synthesis over the retrieval result makes no call to the
    generation collaborator and returns an answer whose text is the
    refusal, whose confidence is below the low-confidence threshold of a
    configuration with a positive threshold, and whose sources are empty;
    the chat endpoint returns exactly these fields for a non-empty
    question. *)
Theorem refusal_when_nothing_meets_cutoff
  (cfg : Config) (idx : Index) (generate : GenerationCall -> option string)
  (corpus : list Chunk) (q : Query) :
  (0 < low_confidence_threshold cfg)%Q ->
  (forall c, In c corpus -> in_scope q c = true ->
             (score idx q c < min_similarity cfg)%Q) ->
  exists a : Answer,
    synthesize cfg generate q (retrieve cfg idx corpus q) = ([], synthesized a)
    /\ answer_text a = refusal_text
    /\ (confidence a < low_confidence_threshold cfg)%Q
    /\ sources a = []
    /\ (question q <> EmptyString ->
        chat cfg idx generate corpus (timestamp q)
             (mkChatRequest (question q) (module_filter q) (chapter_filter q))
        = ([], ok_200 (answer_text a) (sources a) (confidence a))).
Proof.
  intros Hthr Hlow. exists refusal.
  pose proof (retrieve_nothing cfg idx corpus q Hlow) as Hr.
  rewrite Hr. repeat split; try assumption.
  intros Hne. unfold chat. cbn [req_question module_context chapter_context].
  destruct (String.eqb_spec (question q) EmptyString) as [E | _]; [contradiction |].
  destruct q as [qu mf cf ts]. cbn [question module_filter chapter_filter timestamp] in *.
  rewrite Hr. reflexivity.
Qed.

(** C4. The entries of a retrieval result are in non-increasing order of
    similarity, where between two entries of equal similarity the earlier
    one has the earlier (or the same) sequence position, and the score of
    each entry is the similarity of its chunk to the query. *)
Theorem retrieval_result_is_ranked
  (cfg : Config) (idx : Index) (corpus : list Chunk) (q : Query) :
  StronglySorted ranked (retrieve cfg idx corpus q)
  /\ Forall (fun e => snd e = score idx q (fst e)) (retrieve cfg idx corpus q).
Proof.
  split.
  - unfold retrieve, rank_candidates. apply firstn_sorted, rank_sorted.
  - apply Forall_forall. intros e He. now apply retrieve_In in He.
Qed.

(** C5. For a non-empty question sent with module filter [M], every
    source of a 200 response names a chunk of the corpus whose module is
    [M] (every chunk with that identifier, when identifiers are unique);
    the result of retrieval is computed from the chunks in scope alone, so
    it is the same for any two corpora with the same chunks in scope. *)
Theorem sources_respect_module_filter
  (cfg : Config) (idx : Index) (generate : GenerationCall -> option string)
  (corpus : list Chunk) (now : Z) (req : ChatRequest) (M : string)
  (calls : list GenerationCall) (answer : string) (srcs : list string) (conf : Q) :
  req_question req <> EmptyString ->
  module_context req = Some M ->
  chat cfg idx generate corpus now req = (calls, ok_200 answer srcs conf) ->
  (forall id, In id srcs ->
     exists c, In c corpus /\ chunk_id c = id /\ module_tag c = M)
  /\ (NoDup (map chunk_id corpus) ->
      forall c, In c corpus -> In (chunk_id c) srcs -> module_tag c = M)
  /\ (forall q corpus',
        filter (in_scope q) corpus' = filter (in_scope q) corpus ->
        retrieve cfg idx corpus' q = retrieve cfg idx corpus q).
Proof.
  intros Hne HM Hchat.
  assert (Hsrc : forall id, In id srcs ->
            exists c, In c corpus /\ chunk_id c = id /\ module_tag c = M).
  { unfold chat in Hchat.
    destruct (String.eqb_spec (req_question req) EmptyString) as [E | _];
      [contradiction |].
    set (q := mkQuery (req_question req) (module_context req) (chapter_context req) now)
      in Hchat.
    unfold synthesize in Hchat.
    destruct (retrieve cfg idx corpus q) as [| e r] eqn:Hr.
    - injection Hchat as _ _ Hs _. subst srcs. simpl. tauto.
    - destruct (generate _); [| discriminate].
      injection Hchat as _ _ Hs _. subst srcs.
      intros id Hid.
      apply (dedup_In id (map (fun e0 => chunk_id (fst e0)) (e :: r))) in Hid.
      apply in_map_iff in Hid. destruct Hid as [e' [<- He']].
      rewrite <- Hr in He'. apply retrieve_In in He'.
      destruct He' as [Hin [Hscope _]].
      exists (fst e'). repeat split; auto.
      unfold in_scope in Hscope. apply andb_prop in Hscope. destruct Hscope as [Hm _].
      subst q. cbn [module_filter] in Hm. rewrite HM in Hm. simpl in Hm.
      apply String.eqb_eq in Hm. now symmetry. }
  split; [exact Hsrc |]. split.
  - intros Hnd c Hc Hid. destruct (Hsrc _ Hid) as [c' [Hc' [Hid' Hm]]].
    assert (c' = c); [| now subst].
    clear - Hnd Hc Hc' Hid'.
    induction corpus as [| x l IH]; [contradiction |].
    simpl in Hnd. inversion Hnd as [| ? ? Hx Hl]; subst.
    destruct Hc as [-> | Hc], Hc' as [-> | Hc']; auto.
    + exfalso. apply Hx. rewrite <- Hid'. now apply in_map.
    + exfalso. apply Hx. rewrite Hid'. now apply in_map.
  - intros q corpus' Heq. unfold retrieve. now rewrite Heq.
Qed.

End Grounding.

(** ** Strings *)

Section Strings.

Lemma str_eqb_eq (a b : jsstring) : str_eqb a b = true <-> a = b.
Proof.
  revert b. induction a as [| x a IH]; intros [| y b]; simpl;
    try (split; [discriminate | congruence]); [tauto |].
  rewrite andb_true_iff, N.eqb_eq, IH. split.
  - intros [-> ->]. reflexivity.
  - intros H. injection H as -> ->. auto.
Qed.

Lemma str_eqb_neq (a b : jsstring) : str_eqb a b = false <-> a <> b.
Proof.
  rewrite <- str_eqb_eq. destruct (str_eqb a b); split; congruence.
Qed.

Lemma truthy_false (s : jsstring) : truthy s = false <-> s = [].
Proof. destruct s; simpl; split; congruence. Qed.

Lemma trimStart_head (s : jsstring) :
  trimStart s = [] \/
  exists c r, trimStart s = c :: r /\ is_whitespace c = false.
Proof.
  induction s as [| c s IH]; simpl; [now left |].
  destruct (is_whitespace c) eqn:E; [exact IH |].
  right. now exists c, s.
Qed.

Lemma trimStart_nil (s : jsstring) :
  trimStart s = [] <-> whitespace_only s = true.
Proof.
  unfold whitespace_only.
  induction s as [| c s IH]; simpl; [tauto |].
  destruct (is_whitespace c); simpl; [exact IH |].
  split; discriminate.
Qed.

Lemma rev_nil_inv {A : Type} (l : list A) : rev l = [] -> l = [].
Proof.
  intros H. apply (f_equal (@rev A)) in H. now rewrite rev_involutive in H.
Qed.

(** [s.trim()] is the empty string exactly for a blank [s]. *)
Lemma trim_nil (s : jsstring) : trim s = [] <-> whitespace_only s = true.
Proof.
  unfold trim, trimEnd. split.
  - intros H. apply rev_nil_inv in H.
    destruct (trimStart_head s) as [E | [c [r [E Hc]]]]; [now apply trimStart_nil |].
    exfalso. apply trimStart_nil in H. rewrite E in H.
    unfold whitespace_only in H. rewrite forallb_forall in H.
    specialize (H c). rewrite Hc in H.
    assert (In c (rev (c :: r))) as Hin by (apply in_rev; rewrite rev_involutive; now left).
    specialize (H Hin). discriminate.
  - intros H. apply trimStart_nil in H. rewrite H. reflexivity.
Qed.

Lemma trim_truthy (s : jsstring) : truthy (trim s) = negb (whitespace_only s).
Proof.
  destruct (whitespace_only s) eqn:E; simpl.
  - apply truthy_false. now apply trim_nil.
  - destruct (truthy (trim s)) eqn:T; [reflexivity |].
    apply truthy_false, trim_nil in T. congruence.
Qed.

End Strings.

(** ** The widget: sending a question *)

Section Sending.

Import ChatbotWidget.

Lemma sendMessage_guard_spec (s : State) :
  sendMessage_guard s = whitespace_only (inputValue s) || isLoading s.
Proof.
  unfold sendMessage_guard. now rewrite trim_truthy, negb_involutive.
Qed.

Lemma fetches_start (env_url : option jsstring) (s : State) (clk : Clock) :
  fetches (sendMessage_start env_url s clk)
  = if sendMessage_guard s then [] else [chat_request env_url s].
Proof.
  unfold sendMessage_start. now destruct (sendMessage_guard s).
Qed.

Lemma fetches_send (env_url : option jsstring) (s : State) (ev : Event) :
  is_send ev = true ->
  fetches (handler env_url s ev)
  = if sendMessage_guard s then [] else [chat_request env_url s].
Proof.
  destruct ev as [| v | key shiftKey clk | clk | clk o |]; simpl; try discriminate.
  - intros H. unfold handleKeyPress. rewrite H. simpl. apply fetches_start.
  - intros _. apply fetches_start.
Qed.

Lemma dispatchable_send_not_loading (s : State) (ev : Event) :
  is_send ev = true -> dispatchable s ev = true -> isLoading s = false.
Proof.
  destruct ev as [| v | key shiftKey clk | clk | clk o |]; simpl; try discriminate;
    unfold textarea_disabled, send_disabled; intros _ H;
    apply andb_prop in H; destruct H as [_ H]; apply negb_true_iff in H.
  - exact H.
  - apply orb_false_iff in H. tauto.
Qed.

Lemma serialized_requestBody (s : State) :
  serialized_members (requestBody s)
  = (js "question", inputValue s)
    :: (if truthy (currentModule s)
        then [(js "module_context", currentModule s)] else [])
    ++ (if truthy (currentChapter s)
        then [(js "chapter_context", currentChapter s)] else []).
Proof.
  unfold requestBody, or_undefined.
  destruct (truthy (currentModule s)), (truthy (currentChapter s)); reflexivity.
Qed.

(** C2. A send (a click on the enabled Send button, or Enter without
    Shift in the enabled textarea) with a non-blank input issues exactly
    one request: a POST to [/chat] under the API base URL, with a JSON
    content type, whose body is the JSON object holding [question] with
    the input text, then [module_context] exactly when the current module
    is a non-empty string, then [chapter_context] exactly when the current
    chapter is a non-empty string, and nothing else. The rest of
    [sendMessage], run when the request settles, issues no request. *)
Theorem send_issues_one_chat_post
  (env_url : option jsstring) (s : State) (ev : Event) :
  is_send ev = true ->
  dispatchable s ev = true ->
  whitespace_only (inputValue s) = false ->
  fetches (handler env_url s ev)
  = [ {| url := API_BASE_URL env_url ++ js "/chat";
         method := js "POST";
         headers := [(js "Content-Type", js "application/json")];
         body :=
           render_object
             ((js "question", inputValue s)
              :: (if truthy (currentModule s)
                  then [(js "module_context", currentModule s)] else [])
              ++ (if truthy (currentChapter s)
                  then [(js "chapter_context", currentChapter s)] else [])) |} ]
  /\ (forall clk o, fetches (sendMessage_resume clk o) = []).
Proof.
  intros Hsend Hdisp Hblank. split.
  - rewrite (fetches_send env_url s ev Hsend), sendMessage_guard_spec, Hblank.
    rewrite (dispatchable_send_not_loading s ev Hsend Hdisp). simpl.
    unfold chat_request, JSON_stringify. now rewrite serialized_requestBody.
  - intros clk o. unfold sendMessage_resume. now destruct (try_block clk o).
Qed.

(** C7. The request is a function of the input value, the current module
    and the current chapter alone: two widget states that agree on these
    three serialize the same body, whatever their message histories, and
    any request one of them issues equals any request the other issues. *)
Theorem request_ignores_history
  (env_url : option jsstring) (s1 s2 : State) (clk1 clk2 : Clock) :
  inputValue s1 = inputValue s2 ->
  currentModule s1 = currentModule s2 ->
  currentChapter s1 = currentChapter s2 ->
  JSON_stringify (requestBody s1) = JSON_stringify (requestBody s2)
  /\ (forall r1 r2,
        In r1 (fetches (sendMessage_start env_url s1 clk1)) ->
        In r2 (fetches (sendMessage_start env_url s2 clk2)) ->
        r1 = r2 /\ body r1 = body r2)
  /\ (isLoading s1 = isLoading s2 ->
      fetches (sendMessage_start env_url s1 clk1)
      = fetches (sendMessage_start env_url s2 clk2)).
Proof.
  intros Hi Hm Hc.
  assert (Hb : requestBody s1 = requestBody s2).
  { unfold requestBody. now rewrite Hi, Hm, Hc. }
  assert (Hr : chat_request env_url s1 = chat_request env_url s2).
  { unfold chat_request. now rewrite Hb. }
  split; [now rewrite Hb |]. split.
  - intros r1 r2. rewrite !fetches_start.
    destruct (sendMessage_guard s1), (sendMessage_guard s2); simpl; try tauto.
    intros [<- | []] [<- | []]. now rewrite Hr.
  - intros Hl. rewrite !fetches_start, !sendMessage_guard_spec, Hi, Hl, Hr.
    reflexivity.
Qed.

End Sending.

(** ** The widget: the outcome of the request *)

Section Settling.

Import ChatbotWidget.

Lemma response_ok_false (status : Z) :
  (status < 200 \/ 299 < status)%Z -> response_ok status = false.
Proof. unfold response_ok. lia. Qed.

Lemma response_ok_true (status : Z) :
  (200 <= status <= 299)%Z -> response_ok status = true.
Proof. unfold response_ok. lia. Qed.

(** C3. After a response with a status outside 200..299, after a rejected
    [fetch] and after a body that does not parse, [sendMessage] logs the
    error, appends one message and then clears the loading flag; the
    message is from the bot, carries the fixed retry text and is marked as
    an error; for a status outside 200..299 the outcome does not depend on
    the body of the response. *)
Theorem failure_appends_retry_message (clk : Clock) (o : FetchOutcome) :
  (o = fetch_rejected
   \/ (exists status payload,
         o = fetch_response status payload /\ (status < 200 \/ 299 < status)%Z)
   \/ (exists status, o = fetch_response status body_unparseable)) ->
  sendMessage_resume clk o
  = [console_error; setMessages_append (errorMessage clk); setIsLoading false]
  /\ get (errorMessage clk) (js "text")
     = Some (str (js "Sorry, I encountered an error processing your question. Please try again."))
  /\ get (errorMessage clk) (js "sender") = Some (str (js "bot"))
  /\ get (errorMessage clk) (js "isError") = Some (boolean true)
  /\ (forall s,
        run s (sendMessage_resume clk o)
        = mkState (isOpen s) (messages s ++ [errorMessage clk]) (inputValue s) false
                  (currentModule s) (currentChapter s))
  /\ (forall status payload payload',
        (status < 200 \/ 299 < status)%Z ->
        sendMessage_resume clk (fetch_response status payload)
        = sendMessage_resume clk (fetch_response status payload')).
Proof.
  intros H.
  assert (E : sendMessage_resume clk o
              = [console_error; setMessages_append (errorMessage clk); setIsLoading false]).
  { destruct H as [-> | [(status & payload & -> & Hs) | (status & ->)]].
    - reflexivity.
    - unfold sendMessage_resume, try_block. now rewrite response_ok_false.
    - unfold sendMessage_resume, try_block. now destruct (response_ok status). }
  split; [exact E |].
  split; [reflexivity |]. split; [reflexivity |]. split; [reflexivity |]. split.
  - intros s. rewrite E. reflexivity.
  - intros status payload payload' Hs.
    unfold sendMessage_resume, try_block. now rewrite response_ok_false.
Qed.

(** C6. After a response with a 2xx status (200 in particular) whose body
    parses to a value other than [null], [sendMessage] appends one message
    from the bot whose [text], [sources] and [confidence] are the
    [answer], [sources] and [confidence] properties of the parsed body,
    unchanged, and then clears the loading flag. *)
Theorem success_stores_fields_verbatim (clk : Clock) (status : Z) (data : value) :
  (200 <= status <= 299)%Z ->
  data <> null ->
  data <> undefined ->
  exists bot : value,
    sendMessage_resume clk (fetch_response status (body_json data))
    = [setMessages_append bot; setIsLoading false]
    /\ get bot (js "text") = get data (js "answer")
    /\ get bot (js "sources") = get data (js "sources")
    /\ get bot (js "confidence") = get data (js "confidence")
    /\ get bot (js "sender") = Some (str (js "bot"))
    /\ get bot (js "isError") = Some undefined.
Proof.
  intros Hs Hnull Hundef.
  unfold sendMessage_resume, try_block. rewrite (response_ok_true status Hs). simpl.
  unfold botMessage.
  destruct data as [| | b | q | t | elems | props]; try contradiction;
    simpl; eexists; (split; [reflexivity |]); repeat split; reflexivity.
Qed.

End Settling.

(** ** The widget: guard, pending requests and page context *)

Section Instance.

Import ChatbotWidget.

Lemma world_eta (w : World) :
  mkWorld (rendered w) (view w) (in_flight w) (issued w) = w.
Proof. now destruct w. Qed.

Lemma state_eta (s : State) :
  mkState (isOpen s) (messages s) (inputValue s) (isLoading s)
          (currentModule s) (currentChapter s) = s.
Proof. now destruct s. Qed.

Lemma start_cases (env_url : option jsstring) (s : State) (clk : Clock) :
  (sendMessage_guard s = true /\ sendMessage_start env_url s clk = [])
  \/ (isLoading s = false
      /\ sendMessage_start env_url s clk
         = [setMessages_append (userMessage s clk); setInputValue [];
            setIsLoading true; fetch (chat_request env_url s)]).
Proof.
  unfold sendMessage_start. destruct (sendMessage_guard s) eqn:G; [now left |].
  right. unfold sendMessage_guard in G. apply orb_false_iff in G. tauto.
Qed.

Lemma run_blocked (env_url : option jsstring) (s : State) (clk : Clock) :
  sendMessage_guard s = true ->
  sendMessage_start env_url s clk = [].
Proof.
  intros G. unfold sendMessage_start. now rewrite G.
Qed.

(** The state cells [v] after a [sendMessage] that read the cells [r] and
    passed its guard. *)
Lemma run_start_on (env_url : option jsstring) (r v : State) (clk : Clock) :
  sendMessage_guard r = false ->
  run v (sendMessage_start env_url r clk)
  = mkState (isOpen v) (messages v ++ [userMessage r clk]) [] true
            (currentModule v) (currentChapter v).
Proof.
  intros G. unfold sendMessage_start. rewrite G. reflexivity.
Qed.

Lemma run_start (env_url : option jsstring) (s : State) (clk : Clock) :
  sendMessage_guard s = false ->
  run s (sendMessage_start env_url s clk)
  = mkState (isOpen s) (messages s ++ [userMessage s clk]) [] true
            (currentModule s) (currentChapter s).
Proof. apply run_start_on. Qed.

Lemma guard_not_loading (s : State) :
  sendMessage_guard s = false -> isLoading s = false.
Proof.
  unfold sendMessage_guard. intros G. apply orb_false_iff in G. tauto.
Qed.

Lemma guard_of_empty_input (s : State) :
  inputValue s = [] -> sendMessage_guard s = true.
Proof.
  unfold sendMessage_guard. intros ->. reflexivity.
Qed.

Lemma botMessage_sender (clk : Clock) (data bot : value) :
  botMessage clk data = Some bot ->
  get bot (js "sender") = Some (str (js "bot"))
  /\ get bot (js "isError") = Some undefined.
Proof.
  unfold botMessage.
  destruct (get data (js "answer")), (get data (js "sources")),
           (get data (js "confidence")); try discriminate.
  intros H. injection H as <-. split; reflexivity.
Qed.

(** The state cells after the request settles: one message from the bot,
    the reply or the error message, and the loading flag cleared. *)
Lemma run_resume (s : State) (clk : Clock) (o : FetchOutcome) :
  exists m,
    run s (sendMessage_resume clk o)
    = mkState (isOpen s) (messages s ++ [m]) (inputValue s) false
              (currentModule s) (currentChapter s)
    /\ ((exists data, botMessage clk data = Some m) \/ m = errorMessage clk).
Proof.
  unfold sendMessage_resume. destruct (try_block clk o) as [bot |] eqn:T.
  - exists bot. split; [reflexivity |]. left.
    unfold try_block in T. destruct o as [| status payload]; [discriminate |].
    destruct (negb (response_ok status)); [discriminate |].
    destruct payload as [data |]; [| discriminate]. now exists data.
  - exists (errorMessage clk). split; [reflexivity | now right].
Qed.

(** What one event does to an instance: nothing to the messages, the
    loading flag and the requests; or a [sendMessage] that passed its guard
    on the rendered cells; or the settlement of the oldest request; or a
    new render. *)
Lemma step_cases (env_url : option jsstring) (w : World) (ev : Event) :
  (ev <> Rerender
   /\ exists v',
        step env_url w ev = mkWorld (rendered w) v' (in_flight w) (issued w)
        /\ messages v' = messages (view w) /\ isLoading v' = isLoading (view w)
        /\ currentModule v' = currentModule (view w)
        /\ currentChapter v' = currentChapter (view w)
        /\ (inputValue v' = inputValue (view w) \/ exists x, ev = Change x))
  \/ (exists clk,
        is_send ev = true /\ sendMessage_guard (rendered w) = false
        /\ step env_url w ev
           = mkWorld (rendered w)
                     (mkState (isOpen (view w))
                              (messages (view w) ++ [userMessage (rendered w) clk]) []
                              true (currentModule (view w)) (currentChapter (view w)))
                     (in_flight w ++ [chat_request env_url (rendered w)])
                     (issued w ++ [chat_request env_url (rendered w)]))
  \/ (exists clk o r rest m,
        ev = Settle clk o /\ in_flight w = r :: rest
        /\ step env_url w ev
           = mkWorld (rendered w)
                     (mkState (isOpen (view w)) (messages (view w) ++ [m])
                              (inputValue (view w)) false
                              (currentModule (view w)) (currentChapter (view w)))
                     rest (issued w)
        /\ ((exists data, botMessage clk data = Some m) \/ m = errorMessage clk))
  \/ (ev = Rerender
      /\ step env_url w ev = mkWorld (view w) (view w) (in_flight w) (issued w)).
Proof.
  assert (Hsend : forall clk ev',
            is_send ev' = true ->
            step env_url w ev'
            = mkWorld (rendered w)
                (run (view w) (sendMessage_start env_url (rendered w) clk))
                (in_flight w ++ fetches (sendMessage_start env_url (rendered w) clk))
                (issued w ++ fetches (sendMessage_start env_url (rendered w) clk)) ->
            ev' <> Rerender ->
            (ev' <> Rerender
             /\ exists v',
                  step env_url w ev' = mkWorld (rendered w) v' (in_flight w) (issued w)
                  /\ messages v' = messages (view w) /\ isLoading v' = isLoading (view w)
                  /\ currentModule v' = currentModule (view w)
                  /\ currentChapter v' = currentChapter (view w)
                  /\ (inputValue v' = inputValue (view w) \/ exists x, ev' = Change x))
            \/ (exists clk0,
                  is_send ev' = true /\ sendMessage_guard (rendered w) = false
                  /\ step env_url w ev'
                     = mkWorld (rendered w)
                         (mkState (isOpen (view w))
                            (messages (view w) ++ [userMessage (rendered w) clk0]) []
                            true (currentModule (view w)) (currentChapter (view w)))
                         (in_flight w ++ [chat_request env_url (rendered w)])
                         (issued w ++ [chat_request env_url (rendered w)]))).
  { intros clk ev' Hs -> Hne. destruct (sendMessage_guard (rendered w)) eqn:G.
    - left. split; [exact Hne |]. exists (view w).
      rewrite (run_blocked _ _ _ G). cbn [run fold_left fetches].
      rewrite !app_nil_r. repeat split. now left.
    - right. exists clk. split; [exact Hs |]. split; [reflexivity |].
      rewrite (run_start_on _ _ _ _ G), fetches_start, G. reflexivity. }
  destruct ev as [| v | key shiftKey clk | clk | clk o |].
  - left. split; [discriminate |]. eexists.
    split; [cbn; rewrite !app_nil_r; reflexivity |]. cbn. repeat split. now left.
  - left. split; [discriminate |]. eexists.
    split; [cbn; rewrite !app_nil_r; reflexivity |]. cbn. repeat split. right. eauto.
  - destruct (str_eqb key (js "Enter") && negb shiftKey) eqn:E.
    + destruct (Hsend clk (KeyPress key shiftKey clk)) as [H | H];
        [exact E | | discriminate | now left | now right; left].
      cbn [step handler]. unfold handleKeyPress. rewrite E. reflexivity.
    + left. split; [discriminate |]. exists (view w).
      cbn [step handler]. unfold handleKeyPress. rewrite E.
      cbn [run fold_left fetches]. rewrite !app_nil_r. repeat split. now left.
  - destruct (Hsend clk (Click_send clk)) as [H | H];
      [reflexivity | reflexivity | discriminate | now left | now right; left].
  - destruct (in_flight w) as [| r rest] eqn:F.
    + left. split; [discriminate |]. exists (view w).
      cbn [step]. rewrite F. split; [| repeat split; now left].
      rewrite <- F. now rewrite world_eta.
    + right. right. left.
      destruct (run_resume (view w) clk o) as (m & Hm & Hk).
      exists clk, o, r, rest, m. split; [reflexivity |]. split; [reflexivity |].
      split; [| exact Hk]. cbn [step handler]. rewrite F, Hm. reflexivity.
  - right. right. right. split; reflexivity.
Qed.



(** Every request of a mounted widget is built from cells that hold the
    page context of the mount. *)
Lemma play_context (env_url : option jsstring) (m0 c0 : jsstring) (evs : list Event) :
  forall (w : World),
    currentModule (view w) = m0 -> currentChapter (view w) = c0 ->
    (inputValue (rendered w) = []
     \/ (currentModule (rendered w) = m0 /\ currentChapter (rendered w) = c0)) ->
    forall r, In r (issued (play env_url w evs)) ->
      In r (issued w)
      \/ exists s, r = chat_request env_url s
                   /\ currentModule s = m0 /\ currentChapter s = c0.
Proof.
  induction evs as [| ev evs IH]; intros w Hm Hc Hr r Hin; cbn [play fold_left] in Hin;
    [now left |].
  assert (Hstep : currentModule (view (step env_url w ev)) = m0
                  /\ currentChapter (view (step env_url w ev)) = c0
                  /\ (inputValue (rendered (step env_url w ev)) = []
                      \/ (currentModule (rendered (step env_url w ev)) = m0
                          /\ currentChapter (rendered (step env_url w ev)) = c0))
                  /\ (forall r', In r' (issued (step env_url w ev)) ->
                        In r' (issued w)
                        \/ exists s, r' = chat_request env_url s
                                     /\ currentModule s = m0 /\ currentChapter s = c0)).
  { destruct (step_cases env_url w ev)
      as [(_ & v' & -> & _ & _ & Hm' & Hc' & _) | [(clk & _ & G & ->)
          | [(clk & o & r0 & rest & m & _ & _ & -> & _) | (_ & ->)]]];
      cbn [view rendered issued currentModule currentChapter].
    - repeat split; try congruence; auto.
    - repeat split; auto. intros r' Hr'. apply in_app_or in Hr'.
      destruct Hr' as [Hr' | [<- | []]]; [now left |]. right.
      exists (rendered w). split; [reflexivity |].
      destruct Hr as [He | Hctx]; [| exact Hctx].
      apply guard_of_empty_input in He. congruence.
    - repeat split; auto.
    - repeat split; auto. }
  destruct Hstep as (Hm' & Hc' & Hr' & Hi').
  destruct (IH _ Hm' Hc' Hr' r Hin) as [Hold | Hnew]; [| now right].
  now apply Hi'.
Qed.

Lemma mounted_view (pathname : jsstring) :
  view (mounted pathname)
  = mkState false [] [] false
      (if (3 <=? List.length (split 47 pathname))
          && negb (str_eqb (at_index (split 47 pathname) 2) (js "modules"))
       then at_index (split 47 pathname) 2 else [])
      (if (3 <=? List.length (split 47 pathname))
          && (4 <=? List.length (split 47 pathname))
       then at_index (split 47 pathname) 3 else []).
Proof.
  unfold mounted, context_effect. cbv zeta. cbn [view].
  destruct (3 <=? List.length (split 47 pathname));
    destruct (str_eqb (at_index (split 47 pathname) 2) (js "modules"));
    destruct (4 <=? List.length (split 47 pathname)); reflexivity.
Qed.

(** C10. On mount, with the pathname split on the slash: with at least
    three parts the current module becomes the third part when that part
    is neither empty nor [modules] and stays empty otherwise; the current
    chapter becomes the fourth part when there are at least four parts and
    stays empty otherwise; with fewer than three parts both stay empty.
    Every request the widget issues afterwards carries [module_context]
    and [chapter_context] exactly when these strings are non-empty. *)
Theorem page_context_from_pathname (pathname : jsstring) :
  let parts := split 47 pathname in
  let s := view (mounted pathname) in
  ((3 <= List.length parts)%nat ->
     (at_index parts 2 <> [] -> at_index parts 2 <> js "modules" ->
      currentModule s = at_index parts 2)
     /\ (at_index parts 2 = [] \/ at_index parts 2 = js "modules" ->
         currentModule s = [])
     /\ ((4 <= List.length parts)%nat -> currentChapter s = at_index parts 3)
     /\ (List.length parts = 3%nat -> currentChapter s = []))
  /\ ((List.length parts < 3)%nat -> currentModule s = [] /\ currentChapter s = [])
  /\ (forall (env_url : option jsstring) (evs : list Event) (r : Request),
        In r (issued (play env_url (mounted pathname) evs)) ->
        exists question : jsstring,
          body r
          = render_object
              ((js "question", question)
               :: (if truthy (currentModule s)
                   then [(js "module_context", currentModule s)] else [])
               ++ (if truthy (currentChapter s)
                   then [(js "chapter_context", currentChapter s)] else []))).
Proof.
  intros parts s.
  assert (Hs : s = mkState false [] [] false
      (if (3 <=? List.length parts) && negb (str_eqb (at_index parts 2) (js "modules"))
       then at_index parts 2 else [])
      (if (3 <=? List.length parts) && (4 <=? List.length parts)
       then at_index parts 3 else [])) by apply mounted_view.
  split; [| split].
  - intros H3. rewrite Hs. cbn [currentModule currentChapter].
    apply Nat.leb_le in H3. rewrite H3. cbn [andb]. repeat split.
    + intros _ Hne. apply str_eqb_neq in Hne. now rewrite Hne.
    + intros [He | He].
      * destruct (negb _); [exact He | reflexivity].
      * apply str_eqb_eq in He. now rewrite He.
    + intros H4. apply Nat.leb_le in H4. now rewrite H4.
    + intros H4. destruct (Nat.leb_spec 4 (List.length parts)); [lia | reflexivity].
  - intros H3. rewrite Hs. cbn [currentModule currentChapter].
    apply Nat.leb_gt in H3. rewrite H3. split; reflexivity.
  - intros env_url evs r Hr.
    destruct (play_context env_url (currentModule s) (currentChapter s) evs
                (mounted pathname) eq_refl eq_refl (or_introl eq_refl) r Hr)
      as [[] | (s' & -> & Hm & Hc)].
    exists (inputValue s').
    unfold chat_request, JSON_stringify. cbn [body].
    now rewrite serialized_requestBody, Hm, Hc.
Qed.

End Instance.

(** ** The two components *)

Section Components.

(** C9. [ChatbotWidget] and [RAGChatbot] have the same [sendMessage]: the
    same guard, the same request (URL, method, headers and body), the
    same effects before the request, the same bot message on success, the
    same error message, and the same effects after the request settles. *)
Theorem components_send_alike :
  (forall s, ChatbotWidget.sendMessage_guard s = RAGChatbot.sendMessage_guard s)
  /\ (forall env_url s,
        ChatbotWidget.chat_request env_url s = RAGChatbot.chat_request env_url s)
  /\ (forall env_url s clk,
        ChatbotWidget.sendMessage_start env_url s clk
        = RAGChatbot.sendMessage_start env_url s clk)
  /\ (forall clk data, ChatbotWidget.botMessage clk data = RAGChatbot.botMessage clk data)
  /\ (forall clk, ChatbotWidget.errorMessage clk = RAGChatbot.errorMessage clk)
  /\ (forall clk o,
        ChatbotWidget.sendMessage_resume clk o = RAGChatbot.sendMessage_resume clk o).
Proof.
  repeat split.
Qed.

End Components.

(** ** Concrete runs *)

Section Runs.

Example split_course_path :
  split 47 Page.pathname = [[]; js "modules"; js "ros2"; js "intro"].
Proof. reflexivity. Qed.

Example split_empty_path : split 47 [] = [[]].
Proof. reflexivity. Qed.

Example trim_spaces : trim (js "  hi there  ") = js "hi there".
Proof. reflexivity. Qed.

Example quote_escapes :
  quote [97; 34; 10; 55357; 56832; 55357]%N
  = [34; 97; 92; 34; 92; 110; 55357; 56832; 92; 117; 100; 56; 51; 100; 34]%N.
Proof. reflexivity. Qed.

Example stringify_skips_undefined :
  JSON_stringify [(js "question", Some (js "hi")); (js "module_context", None);
                  (js "chapter_context", Some (js "intro"))]
  = [123%N] ++ quote (js "question") ++ [58%N] ++ quote (js "hi") ++ [44%N]
    ++ quote (js "chapter_context") ++ [58%N] ++ quote (js "intro") ++ [125%N].
Proof. reflexivity. Qed.

Example mounted_on_course_page :
  view (mounted Page.pathname) = mkState false [] [] false (js "ros2") (js "intro").
Proof. reflexivity. Qed.

Example scenario_ros_question :
  Backend.chat Scenario.config Scenario.index Scenario.generate Scenario.corpus 0
               Scenario.ros_request
  = ([(["ROS 2 uses nodes and topics"%string], "What is a ROS 2 node?"%string)],
     Backend.ok_200 "ROS 2 uses nodes and topics" ["A"%string] (90 # 100)).
Proof. vm_compute. reflexivity. Qed.

Example scenario_filter_excludes :
  Backend.chat Scenario.config Scenario.index Scenario.generate Scenario.corpus 0
               (Backend.mkChatRequest "What is a node?" (Some "simulation"%string) None)
  = ([], Backend.ok_200 Backend.refusal_text [] 0).
Proof. vm_compute. reflexivity. Qed.

(** A whole exchange: open, type, send, receive, with a render after
    each event; the second click meets the disabled guard. *)
Example exchange_on_course_page :
  let w := play None (mounted Page.pathname)
             [Rerender; Click_toggle; Rerender;
              Change (js "What is a ROS 2 node?"); Rerender;
              Click_send Page.clock; Rerender; Click_send Page.clock;
              Settle Page.clock (fetch_response 200 (body_json Page.answer_data));
              Rerender] in
  List.length (issued w) = 1%nat
  /\ in_flight w = []
  /\ isLoading (view w) = false
  /\ List.length (messages (view w)) = 2%nat
  /\ rendered w = view w.
Proof. vm_compute. repeat split. Qed.

(** Two toggles handled by one render both set the same value. *)
Example two_toggles_from_one_render :
  isOpen (view (play None (mounted Page.pathname) [Click_toggle; Click_toggle])) = true.
Proof. reflexivity. Qed.

End Runs.

(** ** Instances of the conditional statements *)

Section Instances.

Lemma refusal_when_nothing_meets_cutoff_witness :
  (0 < Backend.low_confidence_threshold Scenario.config)%Q
  /\ exists a : Backend.Answer,
       Backend.synthesize Scenario.config Scenario.generate Scenario.quantum_query
         (Backend.retrieve Scenario.config Scenario.index Scenario.corpus
            Scenario.quantum_query)
       = ([], Backend.synthesized a)
       /\ Backend.answer_text a = Backend.refusal_text
       /\ (Backend.confidence a < Backend.low_confidence_threshold Scenario.config)%Q
       /\ Backend.sources a = []
       /\ (Backend.question Scenario.quantum_query <> EmptyString ->
           Backend.chat Scenario.config Scenario.index Scenario.generate Scenario.corpus
             (Backend.timestamp Scenario.quantum_query)
             (Backend.mkChatRequest (Backend.question Scenario.quantum_query)
                (Backend.module_filter Scenario.quantum_query)
                (Backend.chapter_filter Scenario.quantum_query))
           = ([], Backend.ok_200 (Backend.answer_text a) (Backend.sources a)
                    (Backend.confidence a))).
Proof.
  split; [reflexivity |].
  apply (refusal_when_nothing_meets_cutoff Scenario.config Scenario.index
           Scenario.generate Scenario.corpus Scenario.quantum_query).
  - reflexivity.
  - intros c [<- | [<- | []]] _; reflexivity.
Defined.

Lemma sources_respect_module_filter_witness :
  Backend.chat Scenario.config Scenario.index Scenario.generate Scenario.corpus 0
               Scenario.ros_request
  = ([(["ROS 2 uses nodes and topics"%string], "What is a ROS 2 node?"%string)],
     Backend.ok_200 "ROS 2 uses nodes and topics" ["A"%string] (90 # 100))
  /\ (forall id, In id ["A"%string] ->
        exists c, In c Scenario.corpus /\ Backend.chunk_id c = id
                  /\ Backend.module_tag c = "ros2"%string).
Proof.
  split; [vm_compute; reflexivity |].
  apply (sources_respect_module_filter Scenario.config Scenario.index Scenario.generate
           Scenario.corpus 0 Scenario.ros_request "ros2"
           [(["ROS 2 uses nodes and topics"%string], "What is a ROS 2 node?"%string)]
           "ROS 2 uses nodes and topics" ["A"%string] (90 # 100)).
  - discriminate.
  - reflexivity.
  - vm_compute. reflexivity.
Defined.

Lemma send_issues_one_chat_post_witness :
  is_send (Click_send Page.clock) = true
  /\ dispatchable Page.typed (Click_send Page.clock) = true
  /\ whitespace_only (inputValue Page.typed) = false
  /\ fetches (handler None Page.typed (Click_send Page.clock))
     = [ {| url := js "http://localhost:8000/chat";
            method := js "POST";
            headers := [(js "Content-Type", js "application/json")];
            body :=
              render_object
                [(js "question", js "What is a ROS 2 node?");
                 (js "module_context", js "ros2");
                 (js "chapter_context", js "intro")] |} ].
Proof.
  split; [reflexivity |]. split; [reflexivity |]. split; [reflexivity |].
  apply (send_issues_one_chat_post None Page.typed (Click_send Page.clock));
    reflexivity.
Defined.

Lemma failure_appends_retry_message_witness :
  ChatbotWidget.sendMessage_resume Page.clock (fetch_response 503 (body_json null))
  = [console_error; setMessages_append (ChatbotWidget.errorMessage Page.clock);
     setIsLoading false].
Proof.
  apply (failure_appends_retry_message Page.clock (fetch_response 503 (body_json null))).
  right. left. exists 503%Z, (body_json null). split; [reflexivity | right; lia].
Defined.

Lemma success_stores_fields_verbatim_witness :
  exists bot : value,
    ChatbotWidget.sendMessage_resume Page.clock
      (fetch_response 200 (body_json Page.answer_data))
    = [setMessages_append bot; setIsLoading false]
    /\ get bot (js "text") = get Page.answer_data (js "answer")
    /\ get bot (js "sources") = get Page.answer_data (js "sources")
    /\ get bot (js "confidence") = get Page.answer_data (js "confidence")
    /\ get bot (js "sender") = Some (str (js "bot"))
    /\ get bot (js "isError") = Some undefined.
Proof.
  apply (success_stores_fields_verbatim Page.clock 200 Page.answer_data).
  - lia.
  - discriminate.
  - discriminate.
Defined.

Lemma request_ignores_history_witness :
  messages Page.typed <> messages Page.typed_later
  /\ JSON_stringify (ChatbotWidget.requestBody Page.typed)
     = JSON_stringify (ChatbotWidget.requestBody Page.typed_later).
Proof.
  split; [discriminate |].
  apply (request_ignores_history None Page.typed Page.typed_later Page.clock Page.clock);
    reflexivity.
Defined.



Lemma page_context_from_pathname_witness :
  currentModule (view (mounted Page.pathname)) = js "ros2"
  /\ currentChapter (view (mounted Page.pathname)) = js "intro".
Proof.
  destruct (page_context_from_pathname Page.pathname) as [H _].
  assert (H3 : (3 <= List.length (split 47 Page.pathname))%nat) by (simpl; lia).
  destruct (H H3) as (Hm & _ & Hc & _). split.
  - apply Hm; discriminate.
  - apply Hc. simpl. lia.
Defined.

End Instances.

(** ** The request body read back *)

Section ReadBack.

Import JSONRead.

Lemma hex_value_digit (n : N) : (n < 16)%N -> hex_value (hex_digit n) = Some n.
Proof.
  intros H. unfold hex_digit, hex_value.
  destruct (N.ltb_spec n 10).
  - replace ((48 <=? 48 + n) && (48 + n <=? 57))%N with true.
    + f_equal. lia.
    + symmetry. apply andb_true_iff. split; apply N.leb_le; lia.
  - replace ((48 <=? 87 + n) && (87 + n <=? 57))%N with false.
    + replace ((97 <=? 87 + n) && (87 + n <=? 102))%N with true.
      * f_equal. lia.
      * symmetry. apply andb_true_iff. split; apply N.leb_le; lia.
    + symmetry. apply andb_false_iff. right. apply N.leb_gt. lia.
Qed.

Lemma hex_digits_value (c : N) :
  (c < 65536)%N ->
  (4096 * ((c / 4096) mod 16) + 256 * ((c / 256) mod 16)
   + 16 * ((c / 16) mod 16) + c mod 16 = c)%N.
Proof.
  intros H.
  pose proof (N.div_mod c 16 ltac:(lia)).
  pose proof (N.div_mod (c / 16) 16 ltac:(lia)).
  pose proof (N.div_mod (c / 256) 16 ltac:(lia)).
  replace (c / 16 / 16)%N with (c / 256)%N in * by (now rewrite N.Div0.div_div).
  replace (c / 256 / 16)%N with (c / 4096)%N in * by (now rewrite N.Div0.div_div).
  assert (c / 4096 < 16)%N by (apply N.Div0.div_lt_upper_bound; lia).
  rewrite (N.mod_small (c / 4096) 16) by assumption.
  lia.
Qed.

Lemma read_unicode_escape (c : N) (t : jsstring) :
  (c < 65536)%N ->
  read_chars (unicode_escape c ++ t)
  = match read_chars t with
    | Some (s, rest) => Some (c :: s, rest)
    | None => None
    end.
Proof.
  intros H. unfold unicode_escape. cbn [app read_chars N.eqb Pos.eqb].
  rewrite !hex_value_digit by (apply N.mod_lt; lia).
  rewrite hex_digits_value by assumption.
  reflexivity.
Qed.

Ltac read_known :=
  cbn [app read_chars N.eqb Pos.eqb unescape]; reflexivity.

Lemma read_quote_unit (c : N) (t : jsstring) :
  read_chars (quote_unit c ++ t)
  = match read_chars t with
    | Some (s, rest) => Some (c :: s, rest)
    | None => None
    end.
Proof.
  unfold quote_unit.
  destruct (N.eqb_spec c 8) as [-> | N8]; [read_known |].
  destruct (N.eqb_spec c 9) as [-> | N9]; [read_known |].
  destruct (N.eqb_spec c 10) as [-> | N10]; [read_known |].
  destruct (N.eqb_spec c 12) as [-> | N12]; [read_known |].
  destruct (N.eqb_spec c 13) as [-> | N13]; [read_known |].
  destruct (N.eqb_spec c 34) as [-> | N34]; [read_known |].
  destruct (N.eqb_spec c 92) as [-> | N92]; [read_known |].
  destruct ((c <? 32)%N || is_lead_surrogate c || is_trail_surrogate c) eqn:E.
  - apply read_unicode_escape.
    unfold is_lead_surrogate, is_trail_surrogate in E.
    apply orb_true_iff in E. destruct E as [E | E].
    + apply orb_true_iff in E. destruct E as [E | E].
      * apply N.ltb_lt in E. lia.
      * apply andb_true_iff in E. destruct E as [_ E]. apply N.leb_le in E. lia.
    + apply andb_true_iff in E. destruct E as [_ E]. apply N.leb_le in E. lia.
  - apply orb_false_iff in E. destruct E as [E _].
    apply orb_false_iff in E. destruct E as [E _].
    cbn [app read_chars].
    destruct (N.eqb_spec c 34); [contradiction |].
    destruct (N.eqb_spec c 92); [contradiction |].
    rewrite E. reflexivity.
Qed.

Lemma read_surrogate (c : N) (t : jsstring) :
  (is_lead_surrogate c || is_trail_surrogate c) = true ->
  read_chars (c :: t)
  = match read_chars t with
    | Some (s, rest) => Some (c :: s, rest)
    | None => None
    end.
Proof.
  intros H. unfold is_lead_surrogate, is_trail_surrogate in H.
  assert (55296 <= c)%N.
  { apply orb_true_iff in H. destruct H as [H | H];
      apply andb_true_iff in H; destruct H as [H _]; apply N.leb_le in H; lia. }
  cbn [read_chars].
  destruct (N.eqb_spec c 34); [lia |].
  destruct (N.eqb_spec c 92); [lia |].
  destruct (N.ltb_spec c 32); [lia |]. reflexivity.
Qed.

(** The reader undoes the quoting, whatever text follows the closing
    quote. *)
Lemma read_quote_chars (s : jsstring) :
  forall rest, read_chars (quote_chars s ++ 34%N :: rest) = Some (s, rest).
Proof.
  assert (P : (forall rest, read_chars (quote_chars s ++ 34%N :: rest) = Some (s, rest))
              /\ (forall c rest,
                    read_chars (quote_chars (c :: s) ++ 34%N :: rest)
                    = Some (c :: s, rest))).
  { induction s as [| d s [IH0 IH1]].
    - split; [reflexivity |].
      intros c rest. cbn [quote_chars].
      destruct (is_lead_surrogate c) eqn:L.
      + rewrite read_unicode_escape.
        * reflexivity.
        * unfold is_lead_surrogate in L. apply andb_true_iff in L.
          destruct L as [_ L]. apply N.leb_le in L. lia.
      + rewrite <- app_assoc, read_quote_unit. reflexivity.
    - split; [exact (IH1 d) |].
      intros c rest.
      change (quote_chars (c :: d :: s))
        with (if is_lead_surrogate c
              then if is_trail_surrogate d then c :: d :: quote_chars s
                   else unicode_escape c ++ quote_chars (d :: s)
              else quote_unit c ++ quote_chars (d :: s)).
      destruct (is_lead_surrogate c) eqn:L.
      + destruct (is_trail_surrogate d) eqn:T.
        * cbn [app]. rewrite read_surrogate by (rewrite L; reflexivity).
          rewrite read_surrogate by (rewrite T; apply orb_true_r).
          now rewrite IH0.
        * rewrite <- app_assoc, read_unicode_escape.
          -- now rewrite IH1.
          -- unfold is_lead_surrogate in L. apply andb_true_iff in L.
             destruct L as [_ L]. apply N.leb_le in L. lia.
      + rewrite <- app_assoc, read_quote_unit. now rewrite IH1. }
  exact (proj1 P).
Qed.

Lemma read_string_quote (s rest : jsstring) :
  read_string (quote s ++ rest) = Some (s, rest).
Proof.
  unfold quote. cbn [app read_string N.eqb Pos.eqb].
  rewrite <- app_assoc. apply read_quote_chars.
Qed.

Lemma read_member (m : jsstring * jsstring) (more : jsstring) :
  read_string (render_member m ++ more)
  = Some (fst m, 58%N :: quote (snd m) ++ more).
Proof.
  unfold render_member. rewrite <- !app_assoc. apply read_string_quote.
Qed.

Lemma read_members_render (ms : list (jsstring * jsstring)) :
  ms <> [] ->
  forall fuel rest,
    (List.length ms <= fuel)%nat ->
    read_members fuel (join [44%N] (map render_member ms) ++ 125%N :: rest)
    = Some (ms, rest).
Proof.
  induction ms as [| [k v] ms IH]; [congruence |].
  intros _ fuel rest Hfuel.
  destruct fuel as [| fuel]; [simpl in Hfuel; lia |].
  destruct ms as [| m' ms'].
  - cbn [map join read_members]. rewrite read_member. cbn [fst snd N.eqb Pos.eqb].
    rewrite read_string_quote. reflexivity.
  - change (join [44%N] (map render_member ((k, v) :: m' :: ms')))
      with (render_member (k, v) ++ [44%N] ++ join [44%N] (map render_member (m' :: ms'))).
    cbn [read_members]. rewrite <- app_assoc, read_member. cbn [fst snd N.eqb Pos.eqb].
    rewrite <- app_assoc, read_string_quote. cbn [app N.eqb Pos.eqb].
    rewrite IH; [reflexivity | discriminate | simpl in Hfuel |- *; lia].
Qed.

Lemma join_members_length (ms : list (jsstring * jsstring)) :
  (List.length ms <= List.length (join [44%N] (map render_member ms)))%nat.
Proof.
  induction ms as [| m ms IH]; [simpl; lia |].
  destruct ms as [| m' ms'].
  - cbn [map join]. unfold render_member, quote. rewrite !length_app. simpl. lia.
  - change (join [44%N] (map render_member (m :: m' :: ms')))
      with (render_member m ++ [44%N] ++ join [44%N] (map render_member (m' :: ms'))).
    rewrite !length_app. simpl in IH |- *. lia.
Qed.

Lemma join_members_head (m : jsstring * jsstring) (ms : list (jsstring * jsstring)) :
  exists x y u, join [44%N] (map render_member (m :: ms)) = x :: y :: u.
Proof.
  destruct ms as [| m' ms'].
  - cbn [map join]. unfold render_member, quote. cbn [app].
    destruct (quote_chars (fst m)); cbn [app]; eauto.
  - change (join [44%N] (map render_member (m :: m' :: ms')))
      with (render_member m ++ [44%N] ++ join [44%N] (map render_member (m' :: ms'))).
    unfold render_member, quote. cbn [app].
    destruct (quote_chars (fst m)); cbn [app]; eauto.
Qed.

(** The reader recovers the members of any object [render_object]
    writes. *)
Lemma parse_render_object (ms : list (jsstring * jsstring)) :
  parse_object (render_object ms) = Some ms.
Proof.
  unfold render_object, parse_object. cbn [app N.eqb Pos.eqb].
  destruct ms as [| m ms]; [reflexivity |].
  destruct (join_members_head m ms) as (x & y & u & E).
  pose proof (join_members_length (m :: ms)) as Hlen.
  pose proof (read_members_render (m :: ms) ltac:(discriminate)) as Hread.
  rewrite E in Hlen, Hread |- *. cbn [app].
  rewrite (Hread _ []); [reflexivity |].
  cbn [app List.length] in Hlen |- *. rewrite length_app. simpl. lia.
Qed.

End ReadBack.

Section ReadBackRequest.

Import ChatbotWidget.

Lemma body_reads_back (env_url : option jsstring) (s : State) :
  JSONRead.parse_object (body (chat_request env_url s))
  = Some ((js "question", inputValue s)
          :: (if truthy (currentModule s)
              then [(js "module_context", currentModule s)] else [])
          ++ (if truthy (currentChapter s)
              then [(js "chapter_context", currentChapter s)] else [])).
Proof.
  unfold chat_request, JSON_stringify. cbn [body].
  rewrite parse_render_object. now rewrite serialized_requestBody.
Qed.

(** X1. Read as JSON, the body of the request is an object whose members
    are [question] with the input text exactly as typed (quotes, line
    breaks, control characters and surrogates included), then
    [module_context] and [chapter_context] when these strings are not
    empty. *)
Theorem request_body_reads_back (env_url : option jsstring) (s : State) :
  JSONRead.parse_object (body (chat_request env_url s))
  = Some ((js "question", inputValue s)
          :: (if truthy (currentModule s)
              then [(js "module_context", currentModule s)] else [])
          ++ (if truthy (currentChapter s)
              then [(js "chapter_context", currentChapter s)] else [])).
Proof. apply body_reads_back. Qed.

(** X2. The body determines what was asked: two requests with the same
    body come from states with the same input text, the same current
    module and the same current chapter. *)
Theorem request_body_determines_question
  (env1 env2 : option jsstring) (s1 s2 : State) :
  body (chat_request env1 s1) = body (chat_request env2 s2) ->
  inputValue s1 = inputValue s2
  /\ currentModule s1 = currentModule s2
  /\ currentChapter s1 = currentChapter s2.
Proof.
  intros H. apply (f_equal JSONRead.parse_object) in H.
  unfold chat_request, JSON_stringify in H. cbn [body] in H.
  rewrite !parse_render_object, !serialized_requestBody in H.
  injection H as Hq Hrest.
  assert (Km : js "module_context" <> js "chapter_context") by discriminate.
  split; [exact Hq |].
  destruct (truthy (currentModule s1)) eqn:M1, (truthy (currentModule s2)) eqn:M2,
           (truthy (currentChapter s1)) eqn:C1, (truthy (currentChapter s2)) eqn:C2;
    cbn [app] in Hrest; try discriminate;
    repeat match goal with
      | E : truthy _ = false |- _ => apply truthy_false in E
      end;
    try (injection Hrest; intros; split; congruence);
    try (split; congruence);
    try (exfalso; injection Hrest; intros; congruence).
Qed.

End ReadBackRequest.

(** ** The conversation *)

Section Conversation.

Import ChatbotWidget.

Lemma turns_snoc (n : nat) :
  turns n ++ [Some (str (js "user")); Some (str (js "bot"))] = turns (S n).
Proof.
  induction n as [| n IH]; [reflexivity |].
  cbn [turns app]. rewrite IH. reflexivity.
Qed.

Lemma play_alternates (env_url : option jsstring) (evs : list Event) :
  forall (w : World) (fresh : bool) (n : nat),
    rerendered_between_sends fresh evs = true ->
    senders (view w)
    = turns n ++ (if isLoading (view w) then [Some (str (js "user"))] else []) ->
    List.length (in_flight w) = (if isLoading (view w) then 1 else 0)%nat ->
    (fresh = true -> isLoading (rendered w) = false -> isLoading (view w) = false) ->
    exists n',
      senders (view (play env_url w evs))
      = turns n' ++ (if isLoading (view (play env_url w evs))
                     then [Some (str (js "user"))] else [])
      /\ List.length (in_flight (play env_url w evs))
         = (if isLoading (view (play env_url w evs)) then 1 else 0)%nat.
Proof.
  induction evs as [| ev evs IH]; intros w fresh n Htr Hs Hf Hfresh;
    cbn [play fold_left]; [now exists n |].
  cbn [rerendered_between_sends] in Htr.
  destruct (step_cases env_url w ev)
    as [(Hne & v' & E & Hm & Hl & _) | [(clk & Hsend & G & E)
        | [(clk & o & r & rest & m & -> & F & E & Hk) | (-> & E)]]].
  - assert (Hr : is_rerender ev = false) by (destruct ev; try reflexivity; now elim Hne).
    assert (Hs' : senders (view (step env_url w ev))
                  = turns n ++ (if isLoading (view (step env_url w ev))
                                then [Some (str (js "user"))] else [])).
    { rewrite E. cbn [view]. unfold senders in *. now rewrite Hm, Hl. }
    assert (Hf' : List.length (in_flight (step env_url w ev))
                  = (if isLoading (view (step env_url w ev)) then 1 else 0)%nat).
    { rewrite E. cbn [view in_flight]. now rewrite Hl. }
    destruct (is_send ev).
    + apply andb_true_iff in Htr. destruct Htr as [_ Htr].
      apply (IH _ false n Htr Hs' Hf'). discriminate.
    + rewrite Hr, orb_false_r in Htr.
      apply (IH _ fresh n Htr Hs' Hf').
      rewrite E. cbn [view rendered]. now rewrite Hl.
  - rewrite Hsend in Htr. apply andb_true_iff in Htr. destruct Htr as [-> Htr].
    apply guard_not_loading in G. pose proof (Hfresh eq_refl G) as L.
    rewrite L in Hs, Hf. rewrite app_nil_r in Hs.
    apply (IH _ false n Htr); rewrite E; cbn [view in_flight rendered isLoading];
      try discriminate.
    + unfold senders in *. cbn [messages]. now rewrite map_app, Hs.
    + rewrite length_app, Hf. reflexivity.
  - cbn [is_send is_rerender] in Htr. rewrite orb_false_r in Htr.
    destruct (isLoading (view w)) eqn:L; [| rewrite F in Hf; discriminate].
    rewrite F in Hf. destruct rest; [| discriminate].
    apply (IH _ fresh (S n) Htr); rewrite E; cbn [view in_flight rendered isLoading];
      auto.
    unfold senders in *. cbn [messages]. rewrite map_app, Hs, <- app_assoc.
    cbn [map app]. rewrite app_nil_r, <- turns_snoc. do 3 f_equal.
    destruct Hk as [[data Hb] | ->]; [| reflexivity].
    now apply botMessage_sender in Hb.
  - cbn [is_send is_rerender] in Htr. rewrite orb_true_r in Htr.
    apply (IH _ true n Htr); rewrite E; cbn [view in_flight rendered]; auto.
Qed.

(** X3. As long as the component is rendered anew between any two
    sends, the conversation of a mounted widget is a sequence of
    exchanges, a message from the user followed by one from the bot,
    ending with a lone message from the user exactly while the loading
    flag is set; the flag is set exactly while one request is in flight. *)
Theorem conversation_alternates
  (env_url : option jsstring) (pathname : jsstring) (evs : list Event) :
  rerendered_between_sends true evs = true ->
  let w := play env_url (mounted pathname) evs in
  exists n : nat,
    senders (view w)
    = turns n ++ (if isLoading (view w) then [Some (str (js "user"))] else [])
    /\ List.length (in_flight w) = (if isLoading (view w) then 1 else 0)%nat.
Proof.
  intros Htr. cbv zeta.
  apply (play_alternates env_url evs (mounted pathname) true O Htr).
  - rewrite mounted_view. reflexivity.
  - rewrite mounted_view. reflexivity.
  - intros _ _. rewrite mounted_view. reflexivity.
Qed.

(** X4. No event removes or rewrites a message: the messages after any
    sequence of events are the messages before, followed by the ones
    added. *)
Theorem history_only_grows
  (env_url : option jsstring) (w : World) (evs : list Event) :
  exists added : list value,
    messages (view (play env_url w evs)) = messages (view w) ++ added.
Proof.
  revert w. induction evs as [| ev evs IH]; intros w; cbn [play fold_left].
  - exists []. now rewrite app_nil_r.
  - destruct (IH (step env_url w ev)) as [added Ha].
    fold (play env_url (step env_url w ev) evs). rewrite Ha.
    assert (S1 : exists one, messages (view (step env_url w ev)) = messages (view w) ++ one).
    { destruct (step_cases env_url w ev)
        as [(_ & v' & -> & Hm & _) | [(clk & _ & _ & ->)
            | [(clk & o & r & rest & m & _ & _ & -> & _) | (_ & ->)]]];
        cbn [view messages].
      - exists []. now rewrite Hm, app_nil_r.
      - eexists. reflexivity.
      - eexists. reflexivity.
      - exists []. now rewrite app_nil_r. }
    destruct S1 as [one ->]. exists (one ++ added). now rewrite app_assoc.
Qed.

End Conversation.

(** ** Controls *)

Section Controls.

Import ChatbotWidget.

(** X5. A [sendMessage] with a non-blank input and no request pending
    appends one message from the user whose text is the input as typed
    (not trimmed), empties the input and sets the loading flag, leaving
    the other cells alone; the question in the body of its request is the
    same text. *)
Theorem accepted_send_shows_what_it_sends
  (env_url : option jsstring) (s : State) (clk : Clock) :
  whitespace_only (inputValue s) = false ->
  isLoading s = false ->
  run s (sendMessage_start env_url s clk)
  = mkState (isOpen s) (messages s ++ [userMessage s clk]) [] true
            (currentModule s) (currentChapter s)
  /\ get (userMessage s clk) (js "text") = Some (str (inputValue s))
  /\ Render.from_user (userMessage s clk) = Some true
  /\ exists r rest,
       fetches (sendMessage_start env_url s clk) = [r]
       /\ JSONRead.parse_object (body r) = Some ((js "question", inputValue s) :: rest).
Proof.
  intros Hb Hl.
  assert (G : sendMessage_guard s = false).
  { rewrite sendMessage_guard_spec, Hb, Hl. reflexivity. }
  split; [now apply run_start |]. split; [reflexivity |]. split; [reflexivity |].
  exists (chat_request env_url s). eexists. split.
  - rewrite fetches_start, G. reflexivity.
  - apply body_reads_back.
Qed.

(** X6. The Send button is disabled exactly in the states in which
    [sendMessage] returns at its guard: a click the button can receive
    always issues a request, and a state where the button is disabled is
    one where a call would do nothing. *)
Theorem send_button_matches_guard
  (env_url : option jsstring) (s : State) (clk : Clock) :
  (send_disabled s = true <-> sendMessage_start env_url s clk = [])
  /\ (send_disabled s = false <->
      fetches (sendMessage_start env_url s clk) = [chat_request env_url s]).
Proof.
  unfold send_disabled. fold (sendMessage_guard s).
  rewrite fetches_start. unfold sendMessage_start.
  destruct (sendMessage_guard s); repeat split; intros; congruence.
Qed.

(** X7. In the textarea, Enter without Shift does what a click on Send
    does, whatever the state, and any other key press, Shift+Enter
    included, changes neither the state nor the requests. *)
Theorem enter_is_send_other_keys_are_inert
  (env_url : option jsstring) (w : World) (key : jsstring) (shiftKey : bool)
  (clk : Clock) :
  (key = js "Enter" /\ shiftKey = false ->
   step env_url w (KeyPress key shiftKey clk) = step env_url w (Click_send clk))
  /\ (key <> js "Enter" \/ shiftKey = true ->
      step env_url w (KeyPress key shiftKey clk) = w
      /\ handleKeyPress env_url (view w) key shiftKey clk = []).
Proof.
  split.
  - intros [-> ->]. reflexivity.
  - intros H.
    assert (E : str_eqb key (js "Enter") && negb shiftKey = false).
    { destruct H as [H | ->].
      - apply str_eqb_neq in H. now rewrite H.
      - apply andb_false_r. }
    cbn [step handler]. unfold handleKeyPress. rewrite E. cbn [run fold_left fetches].
    rewrite !app_nil_r. split; [apply world_eta | reflexivity].
Qed.

(** X8. [toggleChatbot] sets the open flag to the negation of the value
    its render read and touches nothing else: it commutes with every
    event of the controls and with a settlement, so a reply that arrives
    while the window is closed is recorded all the same; two toggles
    handled by one render set the same value, so the second changes
    nothing; two toggles with a render after each restore a state that
    was rendered. *)
Theorem toggle_touches_only_the_open_flag
  (env_url : option jsstring) (w : World) (ev : Event) :
  (ev <> Rerender ->
   step env_url (step env_url w Click_toggle) ev
   = step env_url (step env_url w ev) Click_toggle)
  /\ step env_url (step env_url w Click_toggle) Click_toggle
     = step env_url w Click_toggle
  /\ (rendered w = view w ->
      play env_url w [Click_toggle; Rerender; Click_toggle; Rerender] = w)
  /\ isOpen (view (step env_url w Click_toggle)) = negb (isOpen (rendered w))
  /\ messages (view (step env_url w Click_toggle)) = messages (view w)
  /\ inputValue (view (step env_url w Click_toggle)) = inputValue (view w)
  /\ isLoading (view (step env_url w Click_toggle)) = isLoading (view w)
  /\ in_flight (step env_url w Click_toggle) = in_flight w.
Proof.
  destruct w as [[ro rms riv rl rm rc] [o ms iv l m c] fl iss].
  split; [| split; [| split; [| repeat split; cbn; now rewrite ?app_nil_r]]].
  - intros Hne. destruct ev as [| v | key shiftKey clk | clk | clk q |].
    + reflexivity.
    + cbn. now rewrite !app_nil_r.
    + cbn [step handler view rendered]. unfold handleKeyPress, toggleChatbot.
      cbn [isOpen run fold_left apply_effect fetches messages inputValue isLoading
           currentModule currentChapter in_flight issued view rendered].
      rewrite !app_nil_r.
      destruct (str_eqb key (js "Enter") && negb shiftKey).
      * unfold sendMessage_start, sendMessage_guard.
        cbn [inputValue isLoading].
        destruct (negb (truthy (trim riv)) || rl); cbn; now rewrite ?app_nil_r.
      * cbn. now rewrite !app_nil_r.
    + cbn [step handler view rendered].
      unfold toggleChatbot, sendMessage_start, sendMessage_guard.
      cbn [isOpen run fold_left apply_effect fetches messages inputValue isLoading
           currentModule currentChapter in_flight issued view rendered].
      rewrite !app_nil_r.
      destruct (negb (truthy (trim riv)) || rl); cbn; now rewrite ?app_nil_r.
    + cbn [step handler view rendered in_flight]. unfold toggleChatbot.
      cbn [fetches app]. rewrite !app_nil_r.
      destruct fl as [| r rest]; [reflexivity |].
      unfold sendMessage_resume. destruct (try_block clk q); cbn; now rewrite ?app_nil_r.
    + now elim Hne.
  - cbn. now rewrite !app_nil_r.
  - cbn [rendered view]. intros H. injection H as -> -> -> -> -> ->.
    cbn. rewrite !app_nil_r. now destruct o.
Qed.

(** X9. With events the controls can dispatch once they show the
    current state cells (no textarea or button event while the loading
    flag disables them), the input is empty whenever the loading flag is
    set: the input is emptied by the send and the textarea takes no input
    until the request settles. *)
Theorem input_is_empty_while_loading
  (env_url : option jsstring) (pathname : jsstring) (evs : list Event) :
  dispatched env_url (mounted pathname) evs = true ->
  isLoading (view (play env_url (mounted pathname) evs)) = true ->
  inputValue (view (play env_url (mounted pathname) evs)) = [].
Proof.
  assert (G : forall w,
            (isLoading (view w) = true -> inputValue (view w) = []) ->
            dispatched env_url w evs = true ->
            isLoading (view (play env_url w evs)) = true ->
            inputValue (view (play env_url w evs)) = []).
  { induction evs as [| ev evs IH]; intros w Hinv Hd; cbn [play fold_left].
    - exact Hinv.
    - cbn [dispatched] in Hd. apply andb_true_iff in Hd. destruct Hd as [Hev Hd].
      apply (IH (step env_url w ev)); [| exact Hd].
      destruct (step_cases env_url w ev)
        as [(_ & v' & -> & _ & Hl & _ & _ & [Hi | [x ->]]) | [(clk & _ & _ & ->)
            | [(clk & o & r & rest & m & _ & _ & -> & _) | (_ & ->)]]];
        cbn [view isLoading inputValue].
      + rewrite Hl, Hi. exact Hinv.
      + cbn in Hev. unfold textarea_disabled in Hev.
        apply andb_true_iff in Hev. destruct Hev as [_ Hev].
        apply negb_true_iff in Hev. congruence.
      + reflexivity.
      + discriminate.
      + exact Hinv. }
  apply G. rewrite mounted_view. cbn. discriminate.
Qed.

End Controls.

(** ** The message list *)

Section MessageList.

Import ChatbotWidget.

Lemma shape_user (s : State) (clk : Clock) : message_shape (userMessage s clk).
Proof. left. exists s, clk. repeat split. Qed.

Lemma shape_error (clk : Clock) : message_shape (errorMessage clk).
Proof. right. right. exists clk. repeat split. Qed.

Lemma shape_reply (clk : Clock) (data m : value) :
  botMessage clk data = Some m -> message_shape m.
Proof.
  intros H. right. left. exists clk, data. split; [exact H |].
  unfold botMessage in H.
  destruct (get data (js "answer")), (get data (js "sources")),
           (get data (js "confidence")); try discriminate.
  injection H as <-. split; reflexivity.
Qed.

Lemma shapes_step (env_url : option jsstring) (w : World) (ev : Event) :
  Forall message_shape (messages (view w)) ->
  Forall message_shape (messages (view (step env_url w ev))).
Proof.
  intros H.
  destruct (step_cases env_url w ev)
    as [(_ & v' & -> & Hm & _) | [(clk & _ & _ & ->)
        | [(clk & o & r & rest & m & _ & _ & -> & Hk) | (_ & ->)]]];
    cbn [view messages].
  - now rewrite Hm.
  - apply Forall_app. split; [exact H |]. constructor; [apply shape_user | constructor].
  - apply Forall_app. split; [exact H |]. constructor; [| constructor].
    destruct Hk as [[data Hb] | ->]; [now apply shape_reply in Hb | apply shape_error].
  - exact H.
Qed.

(** X10. Every message a mounted widget ever holds was built by
    [sendMessage], and the two tests of the message loop come out
    accordingly: [sender === 'user'] holds for the messages of the user
    only, and the guard of the confidence and sources block holds for the
    replies only, never for a message of the user or the error message.
    (Whether a reply's block then renders depends on the values the
    response carried.) *)
Theorem only_replies_pass_the_block_guard
  (env_url : option jsstring) (pathname : jsstring) (evs : list Event) :
  Forall message_shape (messages (view (play env_url (mounted pathname) evs))).
Proof.
  assert (G : forall w, Forall message_shape (messages (view w)) ->
                        Forall message_shape (messages (view (play env_url w evs)))).
  { induction evs as [| ev evs IH]; intros w H; cbn [play fold_left]; [exact H |].
    apply (IH (step env_url w ev)). now apply shapes_step. }
  apply G. rewrite mounted_view. constructor.
Qed.

(** X11. The list of sources of a reply shows the first three sources in
    order and, when there are more, one more line counting the rest, so
    never more than four lines; with no source the list is not drawn. *)
Theorem sources_list_is_capped (sources : list value) :
  (Render.sources_details sources = None <-> sources = [])
  /\ (List.length (Render.source_lines sources) <= 4)%nat
  /\ ((List.length sources <= 3)%nat ->
      Render.source_lines sources = map Render.listed sources)
  /\ ((3 < List.length sources)%nat ->
      exists a b c rest,
        sources = a :: b :: c :: rest /\ rest <> []
        /\ Render.source_lines sources
           = [Render.listed a; Render.listed b; Render.listed c;
              Render.and_more (List.length rest)]).
Proof.
  unfold Render.sources_details, Render.source_lines.
  destruct sources as [| a [| b [| c [| d rest]]]]; cbn.
  - repeat split; intros; try lia; congruence.
  - repeat split; intros; try lia; try congruence; discriminate.
  - repeat split; intros; try lia; try congruence; discriminate.
  - repeat split; intros; try lia; try congruence; discriminate.
  - repeat split; intros; try lia; try congruence; try discriminate.
    exists a, b, c, (d :: rest).
    split; [reflexivity |]. split; [discriminate |]. reflexivity.
Qed.

End MessageList.

(** ** Page addresses *)

Section Addresses.

Import ChatbotWidget.

Lemma split_head (sep : N) (s : jsstring) :
  exists p ps, split sep s = p :: ps.
Proof.
  induction s as [| c s (p & ps & IH)]; cbn [split]; [eauto |].
  destruct (N.eqb c sep); [eauto |]. rewrite IH. eauto.
Qed.

Lemma split_segment (sep : N) (a b : jsstring) :
  ~ In sep a -> split sep (a ++ sep :: b) = a :: split sep b.
Proof.
  induction a as [| c a IH]; intros Ha; cbn [app split].
  - now rewrite N.eqb_refl.
  - destruct (N.eqb_spec c sep) as [-> | Hc]; [exfalso; apply Ha; now left |].
    rewrite IH; [reflexivity |]. intros Hin. apply Ha. now right.
Qed.

Lemma split_last (sep : N) (a : jsstring) :
  ~ In sep a -> split sep a = [a].
Proof.
  induction a as [| c a IH]; intros Ha; cbn [split]; [reflexivity |].
  destruct (N.eqb_spec c sep) as [-> | Hc]; [exfalso; apply Ha; now left |].
  rewrite IH; [reflexivity |]. intros Hin. apply Ha. now right.
Qed.

(** X12. On a page whose address is [/a/m/c], possibly followed by
    further segments, the current module is [m] (nothing when [m] is
    [modules]) and the current chapter is [c]; on [/a/m] the chapter is
    empty; on [/a] both are empty. *)
Theorem context_of_page_address (a m c more : jsstring) :
  ~ In 47%N a -> ~ In 47%N m -> ~ In 47%N c ->
  view (mounted ([47%N] ++ a ++ [47%N] ++ m ++ [47%N] ++ c))
  = mkState false [] [] false (if str_eqb m (js "modules") then [] else m) c
  /\ view (mounted ([47%N] ++ a ++ [47%N] ++ m ++ [47%N] ++ c ++ [47%N] ++ more))
     = mkState false [] [] false (if str_eqb m (js "modules") then [] else m) c
  /\ view (mounted ([47%N] ++ a ++ [47%N] ++ m))
     = mkState false [] [] false (if str_eqb m (js "modules") then [] else m) []
  /\ view (mounted ([47%N] ++ a)) = initial_state.
Proof.
  intros Ha Hm Hc.
  assert (E0 : forall t, split 47 (47%N :: t) = [] :: split 47 t) by reflexivity.
  cbn [app]. repeat split; rewrite mounted_view, E0.
  - rewrite (split_segment 47 a _ Ha), (split_segment 47 m _ Hm), (split_last 47 c Hc).
    cbn. now destruct (str_eqb m _).
  - rewrite (split_segment 47 a _ Ha), (split_segment 47 m _ Hm),
      (split_segment 47 c _ Hc).
    destruct (split_head 47 more) as (p & ps & ->).
    cbn. now destruct (str_eqb m _).
  - rewrite (split_segment 47 a _ Ha), (split_last 47 m Hm).
    cbn. now destruct (str_eqb m _).
  - rewrite (split_last 47 a Ha). reflexivity.
Qed.

End Addresses.

(** ** The injector *)

Section Injector.

Import ChatbotInjector.

Lemma getElementById_absent (key : jsstring) (doc : Document) :
  existsb (has_id key) doc = false -> getElementById key doc = None.
Proof.
  induction doc as [| [tag i kids] doc IH]; [reflexivity |].
  cbn [existsb has_id getElementById]. intros H.
  apply orb_false_iff in H. destruct H as [H Hdoc].
  apply orb_false_iff in H. destruct H as [Hi Hkids].
  now rewrite Hi, Hkids, IH.
Qed.

Lemma getElementById_appended (key : jsstring) (doc : Document) (tag : jsstring)
  (kids : list Node) :
  existsb (has_id key) doc = false ->
  getElementById key (doc ++ [element tag key kids]) = Some (List.length doc, true).
Proof.
  induction doc as [| [tag' i kids'] doc IH]; cbn [app existsb has_id getElementById].
  - intros _. assert (E : str_eqb key key = true) by now apply str_eqb_eq.
    now rewrite E.
  - intros H. apply orb_false_iff in H. destruct H as [H Hdoc].
    apply orb_false_iff in H. destruct H as [Hi Hkids].
    now rewrite Hi, Hkids, IH.
Qed.

Lemma getElementById_found (key : jsstring) (doc more : Document) (k : nat)
  (direct : bool) :
  getElementById key doc = Some (k, direct) ->
  (k < List.length doc)%nat
  /\ getElementById key (doc ++ more) = Some (k, direct).
Proof.
  revert k. induction doc as [| [tag i kids] doc IH]; intros k; [discriminate |].
  cbn [app getElementById List.length].
  destruct (str_eqb i key).
  - intros H. injection H as <- <-. split; [lia | reflexivity].
  - destruct (existsb (has_id key) kids).
    + intros H. injection H as <- <-. split; [lia | reflexivity].
    + destruct (getElementById key doc) as [[k' d'] |]; [| discriminate].
      intros H. injection H as <- <-.
      destruct (IH k' eq_refl) as [Hk ->]. split; [lia | reflexivity].
Qed.

Lemma remove_at_last {A : Type} (l : list A) (x : A) :
  remove_at (List.length l) (l ++ [x]) = l.
Proof.
  induction l as [| y l IH]; [reflexivity |]. cbn. now rewrite IH.
Qed.

Lemma remove_at_app {A : Type} (k : nat) (l more : list A) :
  (k < List.length l)%nat -> remove_at k (l ++ more) = remove_at k l ++ more.
Proof.
  revert k. induction l as [| y l IH]; intros k Hk; [simpl in Hk; lia |].
  destruct k as [| k]; [reflexivity |]. cbn. rewrite IH; [reflexivity |].
  simpl in Hk. lia.
Qed.

(** X13. In a document without an element of id [chatbot-container]: the
    first render yields no portal; the mount effect appends the container
    as the last child of [body], where a later render finds it; and the
    cleanup removes it again, with whatever the portal has put in it,
    restoring the document. Without a container the cleanup does
    nothing. *)
Theorem injector_mount_then_unmount (doc : Document) :
  existsb (has_id (js "chatbot-container")) doc = false ->
  render doc = None
  /\ render (mount_effect doc) = Some (List.length doc, true)
  /\ cleanup (mount_effect doc) = Some doc
  /\ (forall kids,
        cleanup (doc ++ [element (js "div") (js "chatbot-container") kids]) = Some doc)
  /\ cleanup doc = Some doc.
Proof.
  intros H. unfold render, cleanup, mount_effect.
  rewrite (getElementById_absent _ _ H).
  rewrite (getElementById_appended _ doc (js "div") [] H).
  repeat split.
  - now rewrite remove_at_last.
  - intros kids. rewrite (getElementById_appended _ doc (js "div") kids H).
    now rewrite remove_at_last.
Qed.

(** X14. When the document already holds an element of id
    [chatbot-container], render and cleanup act on that element, the
    first in document order, and not on the container the mount effect
    appended: the portal targets it, and the cleanup removes it when it
    is a child of [body], leaving the appended container in place, and
    throws when it is nested deeper. *)
Theorem injector_acts_on_first_match (doc : Document) (k : nat) (direct : bool) :
  getElementById (js "chatbot-container") doc = Some (k, direct) ->
  render (mount_effect doc) = Some (k, direct)
  /\ cleanup (mount_effect doc)
     = if direct
       then Some (remove_at k doc ++ [element (js "div") (js "chatbot-container") []])
       else None.
Proof.
  intros H. unfold render, cleanup, mount_effect.
  destruct (getElementById_found _ doc [element (js "div") (js "chatbot-container") []]
              k direct H) as [Hk ->].
  split; [reflexivity |].
  destruct direct; [| reflexivity]. now rewrite remove_at_app.
Qed.

End Injector.

(** ** The two components, the rest *)

Section ComponentsRest.

(** X15. [ChatbotWidget] and [RAGChatbot] also agree on the key handler,
    on the page context read at mount and on when the textarea and the
    Send button are disabled. *)
Theorem components_handle_alike :
  (forall env_url s key shiftKey clk,
     ChatbotWidget.handleKeyPress env_url s key shiftKey clk
     = RAGChatbot.handleKeyPress env_url s key shiftKey clk)
  /\ (forall pathname,
        ChatbotWidget.context_effect pathname = RAGChatbot.context_effect pathname)
  /\ (forall s, ChatbotWidget.textarea_disabled s = RAGChatbot.textarea_disabled s)
  /\ (forall s, ChatbotWidget.send_disabled s = RAGChatbot.send_disabled s)
  /\ (forall s, ChatbotWidget.toggleChatbot s = RAGChatbot.toggleChatbot s).
Proof.
  repeat split.
Qed.

End ComponentsRest.

(** ** Questions shown and questions sent *)

Section Correspondence.

Import ChatbotWidget.

Lemma reply_not_from_user (clk : Clock) (data m : value) :
  botMessage clk data = Some m -> Render.from_user m = Some false.
Proof.
  unfold botMessage.
  destruct (get data (js "answer")), (get data (js "sources")),
           (get data (js "confidence")); try discriminate.
  intros H. injection H as <-. reflexivity.
Qed.

Lemma correspondence_step (env_url : option jsstring) (w : World) (ev : Event)
  (sent : list (State * Clock)) :
  issued w = map (fun p => chat_request env_url (fst p)) sent ->
  user_messages (view w) = map (fun p => userMessage (fst p) (snd p)) sent ->
  exists sent',
    issued (step env_url w ev) = map (fun p => chat_request env_url (fst p)) sent'
    /\ user_messages (view (step env_url w ev))
       = map (fun p => userMessage (fst p) (snd p)) sent'.
Proof.
  intros Hi Hu.
  destruct (step_cases env_url w ev)
    as [(_ & v' & -> & Hm & _) | [(clk & _ & _ & ->)
        | [(clk & o & r & rest & m & _ & _ & -> & Hk) | (_ & ->)]]];
    cbn [view issued].
  - exists sent. split; [exact Hi |]. unfold user_messages in *. now rewrite Hm.
  - exists (sent ++ [(rendered w, clk)]). rewrite !map_app. cbn [map fst snd].
    split; [now rewrite Hi |].
    unfold user_messages in *. cbn [messages]. rewrite filter_app, Hu. reflexivity.
  - exists sent. split; [exact Hi |].
    unfold user_messages in *. cbn [messages]. rewrite filter_app, Hu.
    assert (F : Render.from_user m = Some false).
    { destruct Hk as [[data Hb] | ->]; [now apply reply_not_from_user in Hb | reflexivity]. }
    cbn [filter]. rewrite F. apply app_nil_r.
  - exists sent. now split.
Qed.

(** X16. The questions on display and the requests issued correspond one
    to one and in order: in every state a mounted widget reaches, the
    k-th message of the user and the k-th request were built by the same
    call of [sendMessage], from the same state. *)
Theorem every_question_shown_was_sent_once
  (env_url : option jsstring) (pathname : jsstring) (evs : list Event) :
  exists sent : list (State * Clock),
    issued (play env_url (mounted pathname) evs)
    = map (fun p => chat_request env_url (fst p)) sent
    /\ user_messages (view (play env_url (mounted pathname) evs))
       = map (fun p => userMessage (fst p) (snd p)) sent.
Proof.
  assert (G : forall w sent,
            issued w = map (fun p => chat_request env_url (fst p)) sent ->
            user_messages (view w) = map (fun p => userMessage (fst p) (snd p)) sent ->
            exists sent',
              issued (play env_url w evs)
              = map (fun p => chat_request env_url (fst p)) sent'
              /\ user_messages (view (play env_url w evs))
                 = map (fun p => userMessage (fst p) (snd p)) sent').
  { induction evs as [| ev evs IH]; intros w sent Hi Hu; cbn [play fold_left].
    - now exists sent.
    - destruct (correspondence_step env_url w ev sent Hi Hu) as (sent' & Hi' & Hu').
      exact (IH _ sent' Hi' Hu'). }
  apply (G (mounted pathname) []); [reflexivity |].
  unfold user_messages. now rewrite mounted_view.
Qed.

End Correspondence.

(** ** Instances of the conditional statements, continued *)

Section MoreInstances.

Lemma request_body_determines_question_witness :
  inputValue Page.typed = inputValue Page.typed_later
  /\ currentModule Page.typed = currentModule Page.typed_later
  /\ currentChapter Page.typed = currentChapter Page.typed_later.
Proof.
  apply (request_body_determines_question None None Page.typed Page.typed_later).
  reflexivity.
Defined.

Lemma accepted_send_shows_what_it_sends_witness :
  whitespace_only (inputValue Page.typed) = false
  /\ isLoading Page.typed = false
  /\ run Page.typed (ChatbotWidget.sendMessage_start None Page.typed Page.clock)
     = mkState true [ChatbotWidget.userMessage Page.typed Page.clock] [] true
               (js "ros2") (js "intro").
Proof.
  split; [reflexivity |]. split; [reflexivity |].
  apply (accepted_send_shows_what_it_sends None Page.typed Page.clock); reflexivity.
Defined.

Lemma enter_is_send_other_keys_are_inert_witness :
  step None (mkWorld Page.typed Page.typed [] []) (KeyPress (js "Enter") true Page.clock)
  = mkWorld Page.typed Page.typed [] [].
Proof.
  apply (proj2 (enter_is_send_other_keys_are_inert None
                  (mkWorld Page.typed Page.typed [] [])
                  (js "Enter") true Page.clock)).
  right. reflexivity.
Defined.

Lemma input_is_empty_while_loading_witness :
  dispatched None (mounted Page.pathname)
    [Rerender; Click_toggle; Rerender; Change (js "What is a ROS 2 node?");
     Rerender; Click_send Page.clock] = true
  /\ inputValue (view (play None (mounted Page.pathname)
       [Rerender; Click_toggle; Rerender; Change (js "What is a ROS 2 node?");
     Rerender; Click_send Page.clock])) = [].
Proof.
  split; [reflexivity |].
  apply (input_is_empty_while_loading None Page.pathname
           [Rerender; Click_toggle; Rerender; Change (js "What is a ROS 2 node?");
     Rerender; Click_send Page.clock]);
    reflexivity.
Defined.

Lemma sources_list_is_capped_witness :
  exists a b c rest,
    [str (js "A"); str (js "B"); str (js "C"); str (js "D"); str (js "E")]
    = a :: b :: c :: rest /\ rest <> []
    /\ Render.source_lines
         [str (js "A"); str (js "B"); str (js "C"); str (js "D"); str (js "E")]
       = [Render.listed a; Render.listed b; Render.listed c;
          Render.and_more (List.length rest)].
Proof.
  apply (sources_list_is_capped
           [str (js "A"); str (js "B"); str (js "C"); str (js "D"); str (js "E")]).
  simpl. lia.
Defined.

Lemma context_of_page_address_witness :
  view (mounted (js "/modules/ros2/intro"))
  = mkState false [] [] false (js "ros2") (js "intro").
Proof.
  apply (context_of_page_address (js "modules") (js "ros2") (js "intro") []);
    intros H; repeat (destruct H as [H | H]; [discriminate |]); exact H.
Defined.

Lemma injector_mount_then_unmount_witness :
  ChatbotInjector.cleanup
    (ChatbotInjector.mount_effect
       [ChatbotInjector.element (js "div") (js "__docusaurus") []])
  = Some [ChatbotInjector.element (js "div") (js "__docusaurus") []].
Proof.
  apply (injector_mount_then_unmount
           [ChatbotInjector.element (js "div") (js "__docusaurus") []]).
  reflexivity.
Defined.

Lemma injector_acts_on_first_match_witness :
  ChatbotInjector.cleanup
    (ChatbotInjector.mount_effect
       [ChatbotInjector.element (js "div") (js "__docusaurus")
          [ChatbotInjector.element (js "aside") (js "chatbot-container") []]])
  = None.
Proof.
  apply (injector_acts_on_first_match
           [ChatbotInjector.element (js "div") (js "__docusaurus")
              [ChatbotInjector.element (js "aside") (js "chatbot-container") []]]
           0 false).
  reflexivity.
Defined.

Lemma conversation_alternates_witness :
  rerendered_between_sends true
    [Rerender; Change (js "hi"); Rerender; Click_send Page.clock] = true
  /\ exists n : nat,
       senders (view (play None (mounted Page.pathname)
                        [Rerender; Change (js "hi"); Rerender; Click_send Page.clock]))
       = turns n
         ++ (if isLoading (view (play None (mounted Page.pathname)
                                   [Rerender; Change (js "hi"); Rerender;
                                    Click_send Page.clock]))
             then [Some (str (js "user"))] else [])
       /\ List.length
            (in_flight (play None (mounted Page.pathname)
                          [Rerender; Change (js "hi"); Rerender; Click_send Page.clock]))
          = (if isLoading (view (play None (mounted Page.pathname)
                                   [Rerender; Change (js "hi"); Rerender;
                                    Click_send Page.clock]))
             then 1 else 0)%nat.
Proof.
  split; [reflexivity |].
  apply (conversation_alternates None Page.pathname
           [Rerender; Change (js "hi"); Rerender; Click_send Page.clock]).
  reflexivity.
Defined.

Lemma toggle_touches_only_the_open_flag_witness :
  rendered (mkWorld Page.typed Page.typed [] []) = view (mkWorld Page.typed Page.typed [] [])
  /\ play None (mkWorld Page.typed Page.typed [] [])
       [Click_toggle; Rerender; Click_toggle; Rerender]
     = mkWorld Page.typed Page.typed [] [].
Proof.
  split; [reflexivity |].
  apply (toggle_touches_only_the_open_flag None (mkWorld Page.typed Page.typed [] [])
           Click_toggle).
  reflexivity.
Defined.

End MoreInstances.
